(** * PIL.ImagePalette: a shallow embedding and its verified properties

    The development follows [src/PIL/ImagePalette.py]: the channel-label
    splitter [split_abbreviations], the [ImagePalette] class with its
    methods ([getdata], [tobytes], [getcolor], [save], [copy]) and the
    module-level factories ([raw], [negative], [wedge], ...).

    Python objects are modelled as follows.
    - [str] is [string]; only ASCII letters are cased (a byte above 127 is
      treated as uncased).
    - [int] is [Z]; a length or an index obtained from [len] is a [nat].
    - the palette buffer is a [buffer]: the element list together with the
      Python type that carries it ([bytes], [bytearray] or [list]), because
      the code tests [isinstance(self.palette, bytes)] and because item
      assignment is checked differently by [bytearray] and [list].
    - the [colors] dict is a [gmap] from tuples of ints to indices.
    - a method is a function from the object's state to an outcome and the
      object's final state: a raised exception does not undo the
      assignments made before it. *)

From Stdlib Require Import ZArith Ascii String DecimalString.
From stdpp Require Import gmap strings list fin_maps.

Local Open Scope Z_scope.

(** ** Python primitives used by the module *)

Module Py.

(** The exceptions the module raises or lets through. *)
Inductive exn : Type :=
| ValueError (msg : string)
| IndexError (msg : string)
| TypeError (msg : string)
| OverflowError (msg : string).

Definition result (A : Type) : Type := (exn + A)%type.

(** [c.islower()] for a one-character ASCII string. *)
Definition char_islower (c : ascii) : bool :=
  let n := nat_of_ascii c in (97 <=? n)%nat && (n <=? 122)%nat.

Definition char_isupper (c : ascii) : bool :=
  let n := nat_of_ascii c in (65 <=? n)%nat && (n <=? 90)%nat.

(** [s.islower()] for an ASCII string: at least one cased character and
    no uppercase one. *)
Definition islower (s : string) : bool :=
  let cs := list_ascii_of_string s in
  existsb char_islower cs && negb (existsb char_isupper cs).

(** [s.split(sep)[0]]: the part of [s] before the first [sep]. *)
Fixpoint split_head (sep : ascii) (s : string) : string :=
  match s with
  | EmptyString => EmptyString
  | String c s' =>
      if Ascii.eqb c sep then EmptyString else String c (split_head sep s')
  end.

(** [s += char]. *)
Definition add_char (s : string) (c : ascii) : string :=
  String.append s (String c EmptyString).

(** ["%d" % n]. *)
Definition fmt_d (n : Z) : string := NilZero.string_of_int (Z.to_int n).

(** [l * n] for a sequence [l]. *)
Definition seq_mul {A : Type} (l : list A) (n : nat) : list A :=
  mjoin (replicate n l).

(** [list(range(n))]. *)
Definition range (n : nat) : list Z := Z.of_nat <$> seq 0 n.

(** Truthiness of an optional sequence ([None] and the empty sequence
    are false). *)
Definition truthy_seq {A : Type} (o : option (list A)) : bool :=
  match o with
  | Some (_ :: _) => true
  | _ => false
  end.

(** Truthiness of an optional string. *)
Definition truthy_str (o : option string) : bool :=
  match o with
  | Some (String _ _) => true
  | _ => false
  end.

End Py.

Import Py.

(** ** [split_abbreviations] *)

(** One iteration of the loop body, on the pair
    [(abbreviations, current_token)]. *)
Definition split_step (st : list string * string) (char : ascii)
  : list string * string :=
  let '(abbreviations, current_token) := st in
  if String.eqb current_token EmptyString then
    (abbreviations, add_char current_token char)
  else if char_islower char then
    (abbreviations, add_char current_token char)
  else
    let abbreviations :=
      if negb (islower current_token) then
        if bool_decide (current_token ∈ abbreviations) then abbreviations
        else abbreviations ++ [current_token]
      else abbreviations in
    (abbreviations, add_char EmptyString char).

Definition split_abbreviations (s : string) : list string :=
  let '(abbreviations, current_token) :=
    foldl split_step ([], EmptyString)
          (list_ascii_of_string (split_head ";" s)) in
  if negb (String.eqb current_token EmptyString) then
    if bool_decide (current_token ∈ abbreviations) then abbreviations
    else abbreviations ++ [current_token]
  else abbreviations.

(** ** The palette object *)

(** An element of [channels]: a label string, or an int when a caller
    hands a list of ints to that parameter. *)
Inductive pyval : Type :=
| PStr (s : string)
| PInt (n : Z).

(** The object bound to [self.palette]. *)
Inductive buffer : Type :=
| PyBytes (data : list Z)
| PyByteArray (data : list Z)
| PyList (data : list Z).

Definition buffer_data (b : buffer) : list Z :=
  match b with
  | PyBytes data | PyByteArray data | PyList data => data
  end.

(** [isinstance(b, bytes)]. *)
Definition is_bytes (b : buffer) : bool :=
  match b with
  | PyBytes _ => true
  | _ => false
  end.

(** [bytearray(b)]. *)
Definition bytearray (b : buffer) : buffer := PyByteArray (buffer_data b).

(** Truthiness of the [palette] argument. *)
Definition truthy_buffer (o : option buffer) : bool :=
  match o with
  | Some b => match buffer_data b with [] => false | _ :: _ => true end
  | None => false
  end.

Definition is_byte (v : Z) : bool := (0 <=? v) && (v <? 256).

(** [b[i] = v]: both mutable sequences check the index, [bytearray]
    also checks the value. *)
Definition buffer_setitem (b : buffer) (i : nat) (v : Z) : result buffer :=
  match b with
  | PyList data =>
      if (i <? length data)%nat then inr (PyList (<[i := v]> data))
      else inl (IndexError "list assignment index out of range")
  | PyByteArray data =>
      if (i <? length data)%nat then
        if is_byte v then inr (PyByteArray (<[i := v]> data))
        else inl (ValueError "byte must be in range(0, 256)")
      else inl (IndexError "bytearray index out of range")
  | PyBytes _ =>
      inl (TypeError "'bytes' object does not support item assignment")
  end.

Record ImagePalette : Type := mkImagePalette {
  mode : string;
  channels : list pyval;
  rawmode : option string;
  palette : buffer;
  colors : gmap (list Z) nat;
  dirty : option Z
}.

Definition set_palette (b : buffer) (self : ImagePalette) : ImagePalette :=
  mkImagePalette (mode self) (channels self) (rawmode self) b
                 (colors self) (dirty self).

Definition set_colors (m : gmap (list Z) nat) (self : ImagePalette)
  : ImagePalette :=
  mkImagePalette (mode self) (channels self) (rawmode self) (palette self)
                 m (dirty self).

Definition set_dirty (d : option Z) (self : ImagePalette) : ImagePalette :=
  mkImagePalette (mode self) (channels self) (rawmode self) (palette self)
                 (colors self) d.

(** The messages of the module's own [ValueError]s, under the names the
    specification gives them. *)
Definition InvalidSizeError : exn := ValueError "wrong palette size".
Definition RawPaletteError : exn :=
  ValueError "palette contains raw palette data".
Definition PaletteFullError : exn :=
  ValueError "cannot allocate more than 256 colors".
Definition InvalidColorSpecifierError (repr : string) : exn :=
  ValueError (String.append "unknown color specifier: " repr).

(** [bytearray(range(256))]. *)
Definition ramp : list Z := range 256.

(** [channels or split_abbreviations(self.mode)]. *)
Definition channels_or_split (channels : option (list pyval)) (mode : string)
  : list pyval :=
  if truthy_seq channels then default [] channels
  else PStr <$> split_abbreviations mode.

(** [ImagePalette.__init__(mode, channels, palette, size)]; the defaults are
    ["RGB"], [None], [None] and [0]. *)
Definition ImagePalette_init (mode : string) (channels : option (list pyval))
    (palette : option buffer) (size : Z) : result ImagePalette :=
  let channels := channels_or_split channels mode in
  let palette :=
    if truthy_buffer palette then default (PyByteArray []) palette
    else PyByteArray (seq_mul ramp (length channels)) in
  let plen := Z.of_nat (length (buffer_data palette)) in
  if ((size =? 0) && negb (Z.of_nat (length channels) * 256 =? plen))
     || (negb (size =? 0) && negb (size =? plen))
  then inl InvalidSizeError
  else inr (mkImagePalette mode channels None palette ∅ None).

(** ** Methods: state and exceptions *)

(** A method that may assign to [self] and may raise. *)
Definition M (A : Type) : Type := ImagePalette → result A * ImagePalette.

Definition ret {A} (a : A) : M A := λ self, (inr a, self).
Definition raise {A} (e : exn) : M A := λ self, (inl e, self).
Definition bind {A B} (m : M A) (k : A → M B) : M B :=
  λ self, match m self with
          | (inr a, self') => k a self'
          | (inl e, self') => (inl e, self')
          end.
Definition get_self : M ImagePalette := λ self, (inr self, self).
Definition assign (f : ImagePalette → ImagePalette) : M unit :=
  λ self, (inr tt, f self).
Definition lift {A} (r : result A) : M A := λ self, (r, self).

Notation "x <- m ;; k" := (bind m (λ x, k))
  (at level 63, m at next level, right associativity).
Notation "m ;;; k" := (bind m (λ _, k))
  (at level 63, right associativity).

(** [color[i]] on a tuple. *)
Definition tuple_getitem (color : list Z) (i : nat) : M Z :=
  match color !! i with
  | Some v => ret v
  | None => raise (IndexError "tuple index out of range")
  end.

(** [self.palette[i] = v]. *)
Definition palette_setitem (i : nat) (v : Z) : M unit :=
  self <- get_self ;;
  b <- lift (buffer_setitem (palette self) i v) ;;
  assign (set_palette b).

(** The argument of [getcolor]: a tuple of ints, or any other object,
    of which only the [repr] matters. *)
Inductive color_arg : Type :=
| ColorTuple (color : list Z)
| ColorOther (repr : string).

Definition getcolor (color : color_arg) : M nat :=
  self <- get_self ;;
  if truthy_str (rawmode self) then raise RawPaletteError
  else
    match color with
    | ColorTuple color =>
        match colors self !! color with
        | Some index => ret index
        | None =>
            (if is_bytes (palette self)
             then assign (set_palette (bytearray (palette self)))
             else ret tt) ;;;
            let index := size (colors self) in
            if (256 <=? index)%nat then raise PaletteFullError
            else
              assign (set_colors (<[color := index]> (colors self))) ;;;
              c0 <- tuple_getitem color 0 ;;
              palette_setitem index c0 ;;;
              c1 <- tuple_getitem color 1 ;;
              palette_setitem (index + 256) c1 ;;;
              c2 <- tuple_getitem color 2 ;;
              palette_setitem (index + 512) c2 ;;;
              assign (set_dirty (Some 1)) ;;;
              ret index
        end
    | ColorOther repr => raise (InvalidColorSpecifierError repr)
    end.

(** ** Methods that only read [self] *)

(** [array.array("B", seq)]: every item must fit an unsigned byte. *)
Definition array_B (b : buffer) : result (list Z) :=
  if forallb is_byte (buffer_data b) then inr (buffer_data b)
  else inl (OverflowError "unsigned byte integer is out of range").

Definition tobytes (self : ImagePalette) : result (list Z) :=
  if truthy_str (rawmode self) then inl RawPaletteError
  else if is_bytes (palette self) then inr (buffer_data (palette self))
  else array_B (palette self).

Definition getdata (self : ImagePalette) : result (string * buffer) :=
  if truthy_str (rawmode self) then
    inr (default EmptyString (rawmode self), palette self)
  else
    match tobytes self with
    | inr bytes => inr (String.append (mode self) ";L", PyBytes bytes)
    | inl e => inl e
    end.

(** A text file open for writing: what was written so far, and whether it
    was closed. *)
Record file : Type := mkFile { written : string; closed : bool }.

(** The [fp] argument of [save]: a file name that [open(fp, "w")]
    accepts, or a file object. *)
Inductive target : Type :=
| Path (name : string)
| File (f : file).

Definition nl : string := String "010" EmptyString.

(** [fp.write(s)]. *)
Definition file_write (s : string) (fp : file) : result file :=
  if closed fp then inl (ValueError "I/O operation on closed file.")
  else inr (mkFile (String.append (written fp) s) false).

(** The [try]/[except IndexError] of the inner loop of [save], for one
    [j]. *)
Definition save_item (self : ImagePalette) (j : nat) : string :=
  match buffer_data (palette self) !! j with
  | Some v => String.append " " (fmt_d v)
  | None => " 0"
  end.

(** The strings written by one iteration of the outer loop of [save]. *)
Definition save_line (self : ImagePalette) (i : nat) : list string :=
  let n := length (channels self) in
  fmt_d (Z.of_nat i) :: (save_item self <$> seq (i * n) ((i + 1) * n - i * n))
    ++ [nl].

(** The arguments of the successive [fp.write] calls of [save]. *)
Definition save_writes (self : ImagePalette) : list string :=
  String.append "# Palette" nl
    :: String.append "# Mode: " (String.append (mode self) nl)
    :: mjoin (save_line self <$> seq 0 256).

Definition write_all (ws : list string) (fp : file) : result file :=
  foldl (λ r s, match r with inr fp => file_write s fp | inl e => inl e end)
        (inr fp) ws.

Definition save (self : ImagePalette) (fp : target) : result file :=
  if truthy_str (rawmode self) then inl RawPaletteError
  else
    let fp := match fp with
              | Path _ => mkFile EmptyString false
              | File f => f
              end in
    match write_all (save_writes self) fp with
    | inr fp => inr (mkFile (written fp) true)
    | inl e => inl e
    end.

(** ** [copy] and the factories *)

(** [ImagePalette()]. *)
Definition ImagePalette_default : result ImagePalette :=
  ImagePalette_init "RGB" None None 0.

(** [copy]: the buffer slice and [colors.copy()] are fresh objects with
    the same contents, which a value model does not tell apart. *)
Definition copy (self : ImagePalette) : result ImagePalette :=
  match ImagePalette_default with
  | inr new =>
      inr (mkImagePalette (mode self) (channels self) (rawmode self)
             (palette self) (colors self) (dirty self))
  | inl e => inl e
  end.

Definition raw (rawmode : string) (data : buffer) : result ImagePalette :=
  match ImagePalette_default with
  | inr palette =>
      inr (mkImagePalette (mode palette)
             (PStr <$> split_abbreviations rawmode) (Some rawmode) data
             (colors palette) (Some 1))
  | inl e => inl e
  end.

(** [negative(mode)]: the reversed ramp is the second positional argument
    of the constructor, which is [channels]. *)
Definition negative (mode : string) : result ImagePalette :=
  let palette := reverse (range 256) in
  ImagePalette_init mode
    (Some (PInt <$> seq_mul palette (length (split_abbreviations mode))))
    None 0.

Definition wedge (mode : string) : result ImagePalette :=
  ImagePalette_init mode
    (Some (PInt <$> seq_mul (range 256) (length (split_abbreviations mode))))
    None 0.

(** The states a palette object can be in: built by the constructor or by
    [raw], then taken through any sequence of [getcolor] calls (whatever
    their outcome) and copies. *)
Inductive reachable : ImagePalette → Prop :=
| reach_init mode channels palette size self :
    ImagePalette_init mode channels palette size = inr self →
    reachable self
| reach_raw rawmode data self :
    raw rawmode data = inr self → reachable self
| reach_getcolor color self :
    reachable self → reachable (getcolor color self).2
| reach_copy self new :
    reachable self → copy self = inr new → reachable new.

(** ** Properties of the Python primitives *)

Section Sequences.

Context {A : Type}.
Implicit Types (l : list A) (n : nat).

Lemma seq_mul_S l n : seq_mul l (S n) = l ++ seq_mul l n.
Proof. reflexivity. Qed.

Lemma seq_mul_length l n : length (seq_mul l n) = (n * length l)%nat.
Proof.
  induction n as [|n IH]; [done|].
  rewrite seq_mul_S, length_app, IH. lia.
Qed.

(** Item [c * length l + i] of [l * n] is item [i] of [l]. *)
Lemma seq_mul_lookup l n c i :
  (c < n)%nat → (i < length l)%nat →
  seq_mul l n !! (c * length l + i)%nat = l !! i.
Proof.
  revert c. induction n as [|n IH]; intros c Hc Hi; [lia|].
  rewrite seq_mul_S. destruct c as [|c].
  - by rewrite lookup_app_l.
  - rewrite lookup_app_r by lia.
    replace (S c * length l + i - length l)%nat
      with (c * length l + i)%nat by lia.
    apply IH; lia.
Qed.

End Sequences.

Lemma range_length n : length (range n) = n.
Proof. unfold range. by rewrite length_fmap, length_seq. Qed.

Lemma range_lookup n i : (i < n)%nat → range n !! i = Some (Z.of_nat i).
Proof.
  intros Hi. unfold range.
  by rewrite list_lookup_fmap, lookup_seq_lt.
Qed.

Lemma ramp_length : length ramp = 256%nat.
Proof. apply range_length. Qed.

(** The default buffer: the identity ramp, once per channel. *)
Lemma default_buffer_lookup n c i :
  (c < n)%nat → (i < 256)%nat →
  seq_mul ramp n !! (c * 256 + i)%nat = Some (Z.of_nat i).
Proof.
  intros Hc Hi. pose proof (seq_mul_lookup ramp n c i Hc) as H.
  rewrite ramp_length in H. rewrite H by done. by apply range_lookup.
Qed.

Lemma default_buffer_length n :
  length (seq_mul ramp n) = (n * 256)%nat.
Proof. by rewrite seq_mul_length, ramp_length. Qed.

(** ** The constructor *)

(** The test of [__init__], as a proposition on the effective channel
    count and buffer length. *)
Lemma init_result mode channels palette size :
  let chs := channels_or_split channels mode in
  let buf := if truthy_buffer palette then default (PyByteArray []) palette
             else PyByteArray (seq_mul ramp (length chs)) in
  let plen := Z.of_nat (length (buffer_data buf)) in
  ((size = 0 ∧ Z.of_nat (length chs) * 256 ≠ plen) ∨ (size ≠ 0 ∧ size ≠ plen)) ∧
    ImagePalette_init mode channels palette size = inl InvalidSizeError
  ∨ ¬ ((size = 0 ∧ Z.of_nat (length chs) * 256 ≠ plen)
       ∨ (size ≠ 0 ∧ size ≠ plen)) ∧
    ImagePalette_init mode channels palette size
    = inr (mkImagePalette mode chs None buf ∅ None).
Proof.
  intros chs buf plen. unfold ImagePalette_init.
  fold chs. fold buf. fold plen.
  destruct (Z.eqb_spec size 0) as [Hs|Hs];
    destruct (Z.eqb_spec (Z.of_nat (length chs) * 256) plen) as [Hc|Hc];
    destruct (Z.eqb_spec size plen) as [Hp|Hp]; simpl;
    first [ left; split; [|reflexivity]; lia
          | right; split; [|reflexivity]; lia ].
Qed.

(** Without a buffer argument and with [size = 0] the constructor cannot
    fail. *)
Lemma init_default_buffer mode channels :
  ImagePalette_init mode channels None 0
  = inr (mkImagePalette mode (channels_or_split channels mode) None
           (PyByteArray
              (seq_mul ramp (length (channels_or_split channels mode))))
           ∅ None).
Proof.
  destruct (init_result mode channels None 0) as [[H _]|[_ H]]; [|exact H].
  simpl in H. rewrite default_buffer_length in H. lia.
Qed.

Lemma default_ok :
  ImagePalette_default
  = inr (mkImagePalette "RGB" [PStr "R"; PStr "G"; PStr "B"] None
           (PyByteArray (seq_mul ramp 3)) ∅ None).
Proof. unfold ImagePalette_default. by rewrite init_default_buffer. Qed.

(** C6. [split_abbreviations] returns, for each of the six mode strings of
    its docstring, exactly the listed tuple: "RGB" gives (R, G, B), "CMYK"
    gives (C, M, Y, K), "YCbCr" gives (Y, Cb, Cr), "sRGB" gives (R, G, B),
    "XYZZ" gives (X, Y, Z) and "I;16B" gives (I,). *)
Theorem split_abbreviations_examples :
  split_abbreviations "RGB" = ["R"; "G"; "B"]%string
  ∧ split_abbreviations "CMYK" = ["C"; "M"; "Y"; "K"]%string
  ∧ split_abbreviations "YCbCr" = ["Y"; "Cb"; "Cr"]%string
  ∧ split_abbreviations "sRGB" = ["R"; "G"; "B"]%string
  ∧ split_abbreviations "XYZZ" = ["X"; "Y"; "Z"]%string
  ∧ split_abbreviations "I;16B" = ["I"]%string.
Proof. repeat split; reflexivity. Qed.

(** C10. An empty [palette] argument (an empty list, [bytes] or
    [bytearray]) with [size = 0] never makes the constructor fail: the
    object gets the default buffer, the identity ramp once per channel, of
    length 256 times the channel count. An empty [channels] argument
    behaves as an absent one: the labels come from the mode string. *)
Theorem init_empty_arguments_use_defaults :
  (∀ mode chs empty,
     empty ∈ [PyList []; PyBytes []; PyByteArray []] →
     ∃ self,
       ImagePalette_init mode chs (Some empty) 0 = inr self
       ∧ palette self = PyByteArray (seq_mul ramp (length (channels self)))
       ∧ length (buffer_data (palette self))
         = (256 * length (channels self))%nat
       ∧ ∀ c i, (c < length (channels self))%nat → (i < 256)%nat →
           buffer_data (palette self) !! (c * 256 + i)%nat
           = Some (Z.of_nat i))
  ∧ (∀ mode palette size,
       ImagePalette_init mode (Some []) palette size
       = ImagePalette_init mode None palette size)
  ∧ (∀ mode palette size self,
       ImagePalette_init mode (Some []) palette size = inr self →
       channels self = PStr <$> split_abbreviations mode).
Proof.
  split; [|split].
  - intros mode chs empty Hempty.
    assert (ImagePalette_init mode chs (Some empty) 0
            = ImagePalette_init mode chs None 0) as ->.
    { repeat (apply elem_of_cons in Hempty as [->|Hempty]; [reflexivity|]).
      by apply elem_of_nil in Hempty. }
    rewrite init_default_buffer. eexists. split; [reflexivity|]. simpl.
    split; [reflexivity|]. split.
    + rewrite default_buffer_length. lia.
    + intros c i Hc Hi. by apply default_buffer_lookup.
  - reflexivity.
  - intros mode pal size self H.
    destruct (init_result mode (Some []) pal size) as [[_ E]|[_ E]];
      rewrite E in H; [discriminate|].
    by injection H as <-.
Qed.

(** C5, counterexamples. With mode "RGB" (three channels) an empty buffer
    has length 0, which differs from 768, and yet the constructor succeeds
    with declared size 0; it also succeeds with declared size 768, which
    differs from the supplied length 0. *)
Lemma init_empty_buffer_accepted :
  (0 = 0 ∧ Z.of_nat (length (buffer_data (PyList []))) ≠ 256 * 3)
  ∧ (∃ self, ImagePalette_init "RGB" None (Some (PyList [])) 0 = inr self
             ∧ length (channels self) = 3%nat)
  ∧ (768 ≠ 0 ∧ 768 ≠ Z.of_nat (length (buffer_data (PyList []))))
  ∧ (∃ self, ImagePalette_init "RGB" None (Some (PyList [])) 768 = inr self).
Proof.
  split; [split; [reflexivity|discriminate]|].
  split; [eexists; split; [apply init_default_buffer|reflexivity]|].
  split; [split; discriminate|].
  destruct (init_result "RGB" None (Some (PyList [])) 768)
    as [[[[H _]|[_ H]] _]|[_ E]]; [discriminate| |by eexists].
  exfalso. apply H. vm_compute. reflexivity.
Qed.

(** C5, amended. With a supplied non-empty buffer the constructor fails
    with [InvalidSizeError] exactly when the declared size is 0 and the
    buffer length differs from 256 times the channel count, or the declared
    size is nonzero and differs from the buffer length; in every other case
    it succeeds and the object holds the supplied buffer. *)
Theorem init_size_validation mode chs buf size :
  buffer_data buf ≠ [] →
  let C := Z.of_nat (length (channels_or_split chs mode)) in
  let len := Z.of_nat (length (buffer_data buf)) in
  let mismatch := (size = 0 ∧ len ≠ 256 * C) ∨ (size ≠ 0 ∧ size ≠ len) in
  (mismatch →
   ImagePalette_init mode chs (Some buf) size = inl InvalidSizeError)
  ∧ (¬ mismatch →
     ∃ self, ImagePalette_init mode chs (Some buf) size = inr self
             ∧ palette self = buf
             ∧ channels self = channels_or_split chs mode).
Proof.
  intros Hne C len mismatch.
  assert (truthy_buffer (Some buf) = true) as Ht.
  { simpl. by destruct (buffer_data buf). }
  pose proof (init_result mode chs (Some buf) size) as H.
  cbv zeta in H. rewrite Ht in H. simpl in H.
  fold C in H. fold len in H. subst mismatch.
  destruct H as [[Hm E]|[Hm E]]; (split; [intros Hm'|intros Hm']).
  - exact E.
  - exfalso. apply Hm'. lia.
  - exfalso. apply Hm. lia.
  - rewrite E. eexists. by split.
Qed.

Lemma init_size_validation_witness :
  (ImagePalette_init "RGB" None (Some (PyList [1; 2; 3])) 0
   = inl InvalidSizeError)
  ∧ (∃ self, ImagePalette_init "RGB" None (Some (PyList [1; 2; 3])) 3
             = inr self
             ∧ palette self = PyList [1; 2; 3]
             ∧ channels self = channels_or_split None "RGB").
Proof.
  pose proof (init_size_validation "RGB" None (PyList [1; 2; 3])) as H.
  split.
  - apply (H 0); [discriminate|]. left. split; [reflexivity|discriminate].
  - apply (H 3); [discriminate|]. intros [[E _]|[_ E]]; [discriminate E|].
    by apply E.
Defined.

(** ** The factories *)

(** C1. What [negative("RGB")] builds: the reversed ramp lands in
    [channels] (768 entries, the first being 255), and the buffer is the
    default identity ramp, so that the entry of index [i] in channel R is
    [i]; at index 0 it is 0, where the reversed ramp would hold 255. *)
Theorem negative_RGB_buffer :
  ∃ self,
    negative "RGB" = inr self
    ∧ length (channels self) = 768%nat
    ∧ channels self !! 0%nat = Some (PInt 255)
    ∧ (∀ i, (i < 256)%nat →
         buffer_data (palette self) !! (0 * 256 + i)%nat
         = Some (Z.of_nat i))
    ∧ buffer_data (palette self) !! (0 * 256 + 0)%nat ≠ Some (255 - 0).
Proof.
  unfold negative. rewrite init_default_buffer.
  eexists. split; [reflexivity|]. cbn [channels palette buffer_data].
  assert (length (channels_or_split
            (Some (PInt <$> seq_mul (reverse (range 256))
                              (length (split_abbreviations "RGB"))))
            "RGB") = 768%nat) as Hlen by (vm_compute; reflexivity).
  rewrite Hlen. split; [reflexivity|]. split; [vm_compute; reflexivity|].
  split.
  - intros i Hi. apply default_buffer_lookup; lia.
  - rewrite (default_buffer_lookup 768 0 0) by lia. discriminate.
Qed.

(** [raw] cannot fail. *)
Lemma raw_ok tag data :
  raw tag data
  = inr (mkImagePalette "RGB" (PStr <$> split_abbreviations tag)
           (Some tag) data ∅ (Some 1)).
Proof. unfold raw. by rewrite default_ok. Qed.

Lemma truthy_str_nonempty s : s ≠ EmptyString → truthy_str (Some s) = true.
Proof. by destruct s. Qed.

(** C2, counterexamples. On the palette built by [raw("RGB", b"\1\2\3")],
    [getdata] does not fail: it returns the tag and the data. On the one
    built by [raw] with an empty tag, [tobytes] does not fail either. *)
Lemma raw_getdata_succeeds :
  (∃ self, raw "RGB" (PyBytes [1; 2; 3]) = inr self
           ∧ getdata self = inr ("RGB"%string, PyBytes [1; 2; 3])
           ∧ getdata self ≠ inl RawPaletteError)
  ∧ (∃ self, raw EmptyString (PyBytes [1; 2; 3]) = inr self
             ∧ tobytes self = inr [1; 2; 3]
             ∧ tobytes self ≠ inl RawPaletteError).
Proof.
  split; rewrite raw_ok; eexists; (split; [reflexivity|]);
    (split; [reflexivity|discriminate]).
Qed.

(** C2, amended. For every palette built by [raw] with a non-empty
    raw-mode tag, [tobytes()] and [save(target)] fail with
    [RawPaletteError], while [getdata()] succeeds and returns the tag and
    the data unmodified. *)
Theorem raw_palette_operations tag data :
  tag ≠ EmptyString →
  ∃ self,
    raw tag data = inr self
    ∧ tobytes self = inl RawPaletteError
    ∧ (∀ fp, save self fp = inl RawPaletteError)
    ∧ getdata self = inr (tag, data).
Proof.
  intros Hne. rewrite raw_ok. eexists. split; [reflexivity|].
  unfold tobytes, save, getdata. cbn [rawmode palette].
  rewrite (truthy_str_nonempty _ Hne). by repeat split.
Qed.

Lemma raw_palette_operations_witness :
  ∃ self,
    raw "RGB;L" (PyBytes [7; 8; 9]) = inr self
    ∧ tobytes self = inl RawPaletteError
    ∧ (∀ fp, save self fp = inl RawPaletteError)
    ∧ getdata self = inr ("RGB;L"%string, PyBytes [7; 8; 9]).
Proof.
  apply (raw_palette_operations "RGB;L" (PyBytes [7; 8; 9])). discriminate.
Defined.

(** ** [save] *)

(** The text dump as the specification words it, for comparison with
    [save_line]: line [i] lists, for every channel [c] in order, the buffer
    entry at offset [c * 256 + i], or 0 beyond the end of the buffer. *)
Definition channel_major_item (self : ImagePalette) (i c : nat) : string :=
  match buffer_data (palette self) !! (c * 256 + i)%nat with
  | Some v => String.append " " (fmt_d v)
  | None => " 0"
  end.

Definition channel_major_line (self : ImagePalette) (i : nat) : list string :=
  fmt_d (Z.of_nat i)
    :: (channel_major_item self i <$> seq 0 (length (channels self)))
    ++ [nl].

(** The entries [save] reads for line [i] are the [C] consecutive ones
    from offset [i * C]. *)
Lemma save_line_offsets self i :
  save_line self i
  = fmt_d (Z.of_nat i)
      :: ((λ c, save_item self (i * length (channels self) + c)%nat)
            <$> seq 0 (length (channels self)))
      ++ [nl].
Proof.
  unfold save_line. cbv zeta. do 2 f_equal.
  replace ((i + 1) * length (channels self) - i * length (channels self))%nat
    with (length (channels self)) by lia.
  set (n := length (channels self)).
  assert (seq (i * n) n = Nat.add (i * n) <$> seq 0 n) as ->.
  { rewrite fmap_add_seq. f_equal. lia. }
  by rewrite <- list_fmap_compose.
Qed.

(** Writing to an open file appends, in order. *)
Lemma write_all_open ws fp :
  closed fp = false →
  write_all ws fp
  = inr (mkFile (foldl String.append (written fp) ws) false).
Proof.
  unfold write_all. revert fp. induction ws as [|w ws IH]; intros fp Hfp.
  - simpl. destruct fp; simpl in *; by subst.
  - simpl. unfold file_write at 2. rewrite Hfp. by rewrite IH.
Qed.

(** On a structured palette and a file name, [save] cannot fail. *)
Lemma save_path self name :
  truthy_str (rawmode self) = false →
  save self (Path name)
  = inr (mkFile (foldl String.append EmptyString (save_writes self)) true).
Proof. intros Hraw. unfold save. rewrite Hraw. by rewrite write_all_open. Qed.

(** C7. On the default "RGB" palette, whose buffer holds 1 at index 1 of
    each of the three channels, [save] writes "# Palette", "# Mode: RGB",
    then for index 0 the line "0 0 1 2" and for index 1 the line "1 3 4 5":
    the buffer entries at offsets 3, 4 and 5, not those at offsets 1, 257
    and 513 that the channel-major dump "1 1 1 1" lists. *)
Theorem save_default_RGB_reads_interleaved :
  ∃ self fp,
    ImagePalette_default = inr self
    ∧ save self (Path "palette.txt") = inr fp
    ∧ closed fp = true
    ∧ String.prefix
        (String.concat nl
           ["# Palette"; "# Mode: RGB"; "0 0 1 2"; "1 3 4 5"; "2 6 7 8";
            EmptyString]%string)
        (written fp) = true
    ∧ save_line self 1 = ["1"; " 3"; " 4"; " 5"; nl]%string
    ∧ channel_major_line self 1 = ["1"; " 1"; " 1"; " 1"; nl]%string
    ∧ save_line self 1 ≠ channel_major_line self 1.
Proof.
  rewrite default_ok. eexists _, _. split; [reflexivity|].
  rewrite save_path by reflexivity. split; [reflexivity|].
  split; [reflexivity|]. split; [vm_compute; reflexivity|].
  assert (save_line
            (mkImagePalette "RGB" [PStr "R"; PStr "G"; PStr "B"] None
               (PyByteArray (seq_mul ramp 3)) ∅ None) 1
          = ["1"; " 3"; " 4"; " 5"; nl]%string) as -> by (vm_compute; reflexivity).
  assert (channel_major_line
            (mkImagePalette "RGB" [PStr "R"; PStr "G"; PStr "B"] None
               (PyByteArray (seq_mul ramp 3)) ∅ None) 1
          = ["1"; " 1"; " 1"; " 1"; nl]%string) as -> by (vm_compute; reflexivity).
  split; [reflexivity|]. split; [reflexivity|]. discriminate.
Qed.

(** ** [getcolor] *)

Section Frame.

(** A computation that leaves every attribute but [palette] and [dirty]
    as it found them, whether it returns or raises. *)
Definition frame {A} (m : M A) : Prop :=
  ∀ self,
    mode (m self).2 = mode self
    ∧ channels (m self).2 = channels self
    ∧ rawmode (m self).2 = rawmode self
    ∧ colors (m self).2 = colors self.

Lemma frame_ret {A} (a : A) : frame (ret a).
Proof. by intros self. Qed.

Lemma frame_raise {A} e : frame (@raise A e).
Proof. by intros self. Qed.

Lemma frame_bind {A B} (m : M A) (k : A → M B) :
  frame m → (∀ a, frame (k a)) → frame (bind m k).
Proof.
  intros Hm Hk self. unfold bind. specialize (Hm self).
  destruct (m self) as [[e|a] self1]; simpl in *; [done|].
  destruct (Hk a self1) as (-> & -> & -> & ->). done.
Qed.

Lemma frame_tuple_getitem color i : frame (tuple_getitem color i).
Proof.
  unfold tuple_getitem. destruct (color !! i); auto using frame_ret, frame_raise.
Qed.

Lemma frame_palette_setitem i v : frame (palette_setitem i v).
Proof.
  intros self. unfold palette_setitem, bind, get_self, lift, assign.
  by destruct (buffer_setitem (palette self) i v).
Qed.

Lemma frame_set_dirty d : frame (assign (set_dirty d)).
Proof. by intros self. Qed.

Lemma frame_set_palette b : frame (assign (set_palette b)).
Proof. by intros self. Qed.

End Frame.

(** The start of an allocation: the [bytes] buffer, if any, is replaced by
    a [bytearray] of the same contents. *)
Definition thawed (self : ImagePalette) : ImagePalette :=
  if is_bytes (palette self) then set_palette (bytearray (palette self)) self
  else self.

(** The statements of [getcolor] that follow [self.colors[color] = index]. *)
Definition store_components (color : list Z) (index : nat) : M nat :=
  c0 <- tuple_getitem color 0 ;;
  palette_setitem index c0 ;;;
  c1 <- tuple_getitem color 1 ;;
  palette_setitem (index + 256) c1 ;;;
  c2 <- tuple_getitem color 2 ;;
  palette_setitem (index + 512) c2 ;;;
  assign (set_dirty (Some 1)) ;;;
  ret index.

Lemma frame_store_components color index :
  frame (store_components color index).
Proof.
  unfold store_components.
  repeat first
    [ apply frame_tuple_getitem | apply frame_palette_setitem
    | apply frame_set_dirty | apply frame_ret
    | apply frame_bind; [|intros ?] ].
Qed.

(** The four paths of [getcolor] on a tuple. *)
Lemma getcolor_raw color self :
  truthy_str (rawmode self) = true →
  getcolor color self = (inl RawPaletteError, self).
Proof. intros H. unfold getcolor, bind, get_self. by rewrite H. Qed.

Lemma getcolor_hit color index self :
  truthy_str (rawmode self) = false →
  colors self !! color = Some index →
  getcolor (ColorTuple color) self = (inr index, self).
Proof.
  intros Hraw Hhit. unfold getcolor, bind, get_self. by rewrite Hraw, Hhit.
Qed.

Lemma getcolor_full color self :
  truthy_str (rawmode self) = false →
  colors self !! color = None →
  (256 ≤ size (colors self))%nat →
  getcolor (ColorTuple color) self = (inl PaletteFullError, thawed self).
Proof.
  intros Hraw Hmiss Hfull. unfold getcolor, bind, get_self, thawed.
  rewrite Hraw, Hmiss.
  apply Nat.leb_le in Hfull.
  destruct (is_bytes (palette self)); unfold assign, ret, raise;
    cbv beta iota zeta; by rewrite Hfull.
Qed.

Lemma getcolor_alloc color self :
  truthy_str (rawmode self) = false →
  colors self !! color = None →
  (size (colors self) < 256)%nat →
  getcolor (ColorTuple color) self
  = store_components color (size (colors self))
      (set_colors (<[color := size (colors self)]> (colors self))
                  (thawed self)).
Proof.
  intros Hraw Hmiss Hfree. unfold getcolor, bind at 1, get_self, thawed.
  rewrite Hraw, Hmiss.
  apply Nat.leb_gt in Hfree.
  destruct (is_bytes (palette self)); unfold bind at 1, assign, ret;
    cbv beta iota zeta; by rewrite Hfree.
Qed.

Lemma thawed_fields self :
  mode (thawed self) = mode self
  ∧ channels (thawed self) = channels self
  ∧ rawmode (thawed self) = rawmode self
  ∧ colors (thawed self) = colors self
  ∧ dirty (thawed self) = dirty self
  ∧ buffer_data (palette (thawed self)) = buffer_data (palette self)
  ∧ is_bytes (palette (thawed self)) = false.
Proof.
  unfold thawed. destruct (is_bytes (palette self)) eqn:E; by repeat split.
Qed.

(** *** Item assignment that succeeds *)

(** The buffer after [b[i] = v], when the assignment is accepted. *)
Definition buffer_put (b : buffer) (i : nat) (v : Z) : buffer :=
  match b with
  | PyBytes data => PyBytes data
  | PyByteArray data => PyByteArray (<[i := v]> data)
  | PyList data => PyList (<[i := v]> data)
  end.

Lemma buffer_setitem_ok b i v :
  is_bytes b = false →
  (i < length (buffer_data b))%nat →
  is_byte v = true →
  buffer_setitem b i v = inr (buffer_put b i v).
Proof.
  intros Hb Hi Hv. apply Nat.ltb_lt in Hi.
  destruct b; simpl in *; [done| |]; by rewrite Hi, ?Hv.
Qed.

Lemma buffer_put_data b i v :
  is_bytes b = false →
  buffer_data (buffer_put b i v) = <[i := v]> (buffer_data b).
Proof. by destruct b. Qed.

Lemma buffer_put_is_bytes b i v : is_bytes (buffer_put b i v) = is_bytes b.
Proof. by destruct b. Qed.

Lemma palette_setitem_ok i v self :
  is_bytes (palette self) = false →
  (i < length (buffer_data (palette self)))%nat →
  is_byte v = true →
  palette_setitem i v self
  = (inr tt, set_palette (buffer_put (palette self) i v) self).
Proof.
  intros Hb Hi Hv. unfold palette_setitem, bind, get_self, lift, assign.
  by rewrite buffer_setitem_ok.
Qed.

(** What [getcolor] leaves in the buffer: the first three components of
    [color], as far as the tuple has them, at offsets [c * 256 + index];
    every other entry as it was. *)
Definition stored (color : list Z) (index : nat) (old new : list Z) : Prop :=
  length new = length old
  ∧ (∀ c, (c < 3)%nat → (c < length color)%nat →
       new !! (c * 256 + index)%nat = color !! c)
  ∧ (∀ j, (∀ c, (c < 3)%nat → (c < length color)%nat →
             j ≠ (c * 256 + index)%nat) →
       new !! j = old !! j).

Ltac solve_stored :=
  unfold stored; split; [|split];
  [ by rewrite ?length_insert
  | intros [|[|[|c]]] Hc3 Hcl; cbn [length] in Hcl; try lia;
    cbn [lookup list_lookup];
    rewrite ?list_lookup_insert; repeat case_decide;
    rewrite ?length_insert in *; first [reflexivity | exfalso; lia]
  | intros j Hj;
    pose proof (Hj 0%nat); pose proof (Hj 1%nat); pose proof (Hj 2%nat);
    cbn [length] in *;
    rewrite ?list_lookup_insert; repeat case_decide;
    first [reflexivity | exfalso; lia] ].

(** The outcome of the stores on a mutable buffer that is long enough for
    the tuple: three or more byte components are stored and the index is
    returned; a shorter tuple has its components stored, then reading the
    missing one raises. *)
Lemma store_components_spec color index self :
  is_bytes (palette self) = false →
  Forall (λ v, is_byte v = true) color →
  (index < 256)%nat →
  (256 * length color ≤ length (buffer_data (palette self)))%nat →
  ∃ self',
    store_components color index self
    = (if decide (3 ≤ length color)%nat then inr index
       else inl (IndexError "tuple index out of range"), self')
    ∧ dirty self'
      = (if decide (3 ≤ length color)%nat then Some 1 else dirty self)
    ∧ is_bytes (palette self') = false
    ∧ stored color index (buffer_data (palette self))
        (buffer_data (palette self')).
Proof.
  intros Hb Hbytes Hidx Hlen.
  destruct color as [|c0 [|c1 [|c2 rest]]]; cbn [length] in Hlen;
    repeat match goal with
           | H : Forall _ (_ :: _) |- _ =>
               apply Forall_cons in H as [? H]
           end;
    unfold store_components, bind, tuple_getitem, ret, raise, assign;
    cbn [lookup list_lookup].
  - eexists. split; [reflexivity|]. split; [reflexivity|].
    split; [done|]. solve_stored.
  - rewrite palette_setitem_ok by (done || lia). cbv beta iota.
    eexists. split; [reflexivity|]. split; [reflexivity|].
    cbn [palette set_dirty set_palette].
    rewrite buffer_put_is_bytes, buffer_put_data by done.
    split; [done|]. solve_stored.
  - rewrite palette_setitem_ok by (done || lia). cbv beta iota.
    rewrite palette_setitem_ok;
      [|cbn [palette set_palette]; by rewrite buffer_put_is_bytes
       |cbn [palette set_palette]; rewrite buffer_put_data, length_insert by done; lia
       |done].
    cbv beta iota.
    eexists. split; [reflexivity|]. split; [reflexivity|].
    cbn [palette set_dirty set_palette].
    rewrite !buffer_put_is_bytes, !buffer_put_data
      by (by rewrite ?buffer_put_is_bytes).
    split; [done|]. solve_stored.
  - rewrite palette_setitem_ok by (done || lia). cbv beta iota.
    rewrite palette_setitem_ok;
      [|cbn [palette set_palette]; by rewrite buffer_put_is_bytes
       |cbn [palette set_palette]; rewrite buffer_put_data, length_insert by done; lia
       |done].
    cbv beta iota.
    rewrite palette_setitem_ok;
      [|cbn [palette set_palette]; by rewrite !buffer_put_is_bytes
       |cbn [palette set_palette];
        rewrite !buffer_put_data, !length_insert
          by (by rewrite ?buffer_put_is_bytes); lia
       |done].
    cbv beta iota.
    eexists. split; [reflexivity|]. split; [reflexivity|].
    cbn [palette set_dirty set_palette].
    rewrite !buffer_put_is_bytes, !buffer_put_data
      by (by rewrite ?buffer_put_is_bytes).
    split; [done|]. solve_stored.
Qed.

Lemma is_byte_spec v : is_byte v = true ↔ 0 ≤ v ≤ 255.
Proof. unfold is_byte. lia. Qed.


(** When the stores return, they return the index they were given. *)
Lemma store_components_returns color index self r self' :
  store_components color index self = (inr r, self') → r = index.
Proof.
  unfold store_components, bind, tuple_getitem, raise, ret, assign.
  repeat (match goal with
          | |- context [match ?l !! ?i with _ => _ end] =>
              destruct (l !! i)
          | |- context [palette_setitem ?i ?v ?s] =>
              destruct (palette_setitem i v s) as [[?|[]] ?]
          end; try discriminate).
  by intros [= -> _].
Qed.

(** The attributes after an allocation attempt that got past the size
    check, whatever its outcome. *)
Lemma getcolor_alloc_fields color self :
  truthy_str (rawmode self) = false →
  colors self !! color = None →
  (size (colors self) < 256)%nat →
  let self' := (getcolor (ColorTuple color) self).2 in
  mode self' = mode self
  ∧ channels self' = channels self
  ∧ rawmode self' = rawmode self
  ∧ colors self' = <[color := size (colors self)]> (colors self).
Proof.
  intros Hraw Hmiss Hfree. cbv zeta. rewrite getcolor_alloc by done.
  destruct (frame_store_components color (size (colors self))
              (set_colors (<[color := size (colors self)]> (colors self))
                 (thawed self))) as (-> & -> & -> & ->).
  destruct (thawed_fields self) as (Hm & Hc & Hr & _). by repeat split.
Qed.

(** Calling [getcolor] again with a tuple for which it returned an index
    returns that index again and assigns nothing. *)
Lemma getcolor_twice color self index self' :
  getcolor (ColorTuple color) self = (inr index, self') →
  getcolor (ColorTuple color) self' = (inr index, self').
Proof.
  intros Hcall.
  destruct (truthy_str (rawmode self)) eqn:Hraw.
  { rewrite getcolor_raw in Hcall by done. discriminate. }
  destruct (colors self !! color) as [i|] eqn:Hlook.
  { rewrite (getcolor_hit _ i) in Hcall by done.
    injection Hcall as <- <-. by apply getcolor_hit. }
  destruct (decide (size (colors self) < 256)%nat) as [Hfree|Hfull].
  - pose proof (getcolor_alloc_fields color self Hraw Hlook Hfree) as Hf.
    cbv zeta in Hf. rewrite Hcall in Hf. simpl in Hf.
    destruct Hf as (_ & _ & Hr & Hc).
    rewrite getcolor_alloc in Hcall by done.
    apply store_components_returns in Hcall as ->.
    apply getcolor_hit; [by rewrite Hr|]. rewrite Hc.
    apply lookup_insert_eq.
  - rewrite getcolor_full in Hcall by (done || lia). discriminate.
Qed.

(** C8. [getcolor] on a structured palette, with a tuple that is already
    in [colors], returns the recorded index and leaves the object as it
    was: [colors], the buffer and the dirty flag are unchanged, and so a
    repeated call gives the same index again. *)
Theorem getcolor_idempotent self color index :
  truthy_str (rawmode self) = false →
  colors self !! color = Some index →
  getcolor (ColorTuple color) self = (inr index, self)
  ∧ getcolor (ColorTuple color) (getcolor (ColorTuple color) self).2
    = (inr index, self)
  ∧ size (colors (getcolor (ColorTuple color) self).2) = size (colors self).
Proof.
  intros Hraw Hhit. pose proof (getcolor_hit color index self Hraw Hhit) as H.
  rewrite H. by repeat split.
Qed.

Lemma getcolor_idempotent_witness :
  let self :=
    mkImagePalette "RGB" [PStr "R"; PStr "G"; PStr "B"] None
      (PyByteArray [7; 8; 9]) {[ [1; 2; 3] := 0%nat ]} (Some 1) in
  getcolor (ColorTuple [1; 2; 3]) self = (inr 0%nat, self)
  ∧ getcolor (ColorTuple [1; 2; 3]) (getcolor (ColorTuple [1; 2; 3]) self).2
    = (inr 0%nat, self)
  ∧ size (colors (getcolor (ColorTuple [1; 2; 3]) self).2)
    = size (colors self).
Proof.
  intros self. apply (getcolor_idempotent self [1; 2; 3] 0%nat).
  - reflexivity.
  - vm_compute. reflexivity.
Defined.

(** C3, counterexample. On the default "CMYK" palette (four channels, 1024
    entries, nothing allocated) [getcolor((10, 20, 30, 40))] returns index
    0, and the entry at offset [3 * 256 + 0] still holds the ramp value 0:
    the fourth component, 40, is not stored. *)
Lemma getcolor_CMYK_fourth_component_not_stored :
  ∃ self self',
    ImagePalette_init "CMYK" None None 0 = inr self
    ∧ truthy_str (rawmode self) = false
    ∧ length (channels self) = 4%nat
    ∧ length (buffer_data (palette self)) = (256 * 4)%nat
    ∧ colors self !! [10; 20; 30; 40] = None
    ∧ size (colors self) = 0%nat
    ∧ getcolor (ColorTuple [10; 20; 30; 40]) self = (inr 0%nat, self')
    ∧ buffer_data (palette self') !! (3 * 256 + 0)%nat = Some 0
    ∧ [10; 20; 30; 40] !! 3%nat = Some 40.
Proof.
  rewrite init_default_buffer. eexists _, _. split; [reflexivity|].
  split; [reflexivity|]. split; [reflexivity|].
  split; [vm_compute; reflexivity|]. split; [reflexivity|].
  split; [reflexivity|]. split; [vm_compute; reflexivity|].
  split; [vm_compute; reflexivity|reflexivity].
Qed.

(** C3, amended. On a structured palette with [C >= 3] channels and a
    buffer of [256 * C] entries, for a [C]-tuple of byte components that is
    not yet in [colors] and with fewer than 256 colors allocated,
    [getcolor] takes the allocation count as index, stores the components
    [c = 0, 1, 2] at offsets [c * 256 + index] and no other entry (the
    entries of the channels [c >= 3] keep their values), records the
    mapping, sets the dirty flag and returns the index. *)
Theorem getcolor_allocates self color :
  truthy_str (rawmode self) = false →
  colors self !! color = None →
  (size (colors self) < 256)%nat →
  length color = length (channels self) →
  (3 ≤ length (channels self))%nat →
  length (buffer_data (palette self)) = (256 * length (channels self))%nat →
  Forall (λ v, 0 ≤ v ≤ 255) color →
  ∃ self',
    getcolor (ColorTuple color) self = (inr (size (colors self)), self')
    ∧ colors self' = <[color := size (colors self)]> (colors self)
    ∧ dirty self' = Some 1
    ∧ (∀ c, (c < 3)%nat →
         buffer_data (palette self') !! (c * 256 + size (colors self))%nat
         = color !! c)
    ∧ (∀ j, (∀ c, (c < 3)%nat → j ≠ (c * 256 + size (colors self))%nat) →
         buffer_data (palette self') !! j = buffer_data (palette self) !! j)
    ∧ length (buffer_data (palette self'))
      = length (buffer_data (palette self))
    ∧ mode self' = mode self
    ∧ channels self' = channels self
    ∧ rawmode self' = rawmode self.
Proof.
  intros Hraw Hmiss Hfree Hcolor HC Hbuf Hbytes.
  pose proof (getcolor_alloc_fields color self Hraw Hmiss Hfree) as Hf.
  cbv zeta in Hf. rewrite getcolor_alloc in * by done.
  destruct (thawed_fields self) as (_ & _ & _ & _ & _ & Hdata & Hthaw).
  destruct (store_components_spec color (size (colors self))
              (set_colors (<[color := size (colors self)]> (colors self))
                 (thawed self)))
    as (self' & Hrun & Hdirty & _ & Hlen & Hput & Hkeep).
  { done. }
  { eapply Forall_impl; [exact Hbytes|]. intros v Hv. by apply is_byte_spec. }
  { done. }
  { cbn [palette set_colors]. rewrite Hdata. lia. }
  cbn [palette set_colors] in Hlen, Hput, Hkeep.
  rewrite Hdata in Hlen, Hkeep.
  destruct (decide (3 ≤ length color)%nat) as [_|]; [|lia].
  rewrite Hrun in Hf |- *. simpl in Hf. destruct Hf as (Hm & Hc & Hr & Hcs).
  exists self'. repeat split; try done.
  - intros c Hc3. apply Hput; lia.
  - intros j Hj. apply Hkeep. intros c Hc3 _. by apply Hj.
Qed.

Lemma getcolor_allocates_witness :
  let self :=
    mkImagePalette "RGB" [PStr "R"; PStr "G"; PStr "B"] None
      (PyByteArray (seq_mul ramp 3)) ∅ None in
  ∃ self',
    getcolor (ColorTuple [10; 20; 30]) self = (inr (size (colors self)), self')
    ∧ colors self' = <[ [10; 20; 30] := size (colors self)]> (colors self)
    ∧ dirty self' = Some 1
    ∧ (∀ c, (c < 3)%nat →
         buffer_data (palette self') !! (c * 256 + size (colors self))%nat
         = [10; 20; 30] !! c)
    ∧ (∀ j, (∀ c, (c < 3)%nat → j ≠ (c * 256 + size (colors self))%nat) →
         buffer_data (palette self') !! j = buffer_data (palette self) !! j)
    ∧ length (buffer_data (palette self'))
      = length (buffer_data (palette self))
    ∧ mode self' = mode self
    ∧ channels self' = channels self
    ∧ rawmode self' = rawmode self.
Proof.
  intros self. apply (getcolor_allocates self [10; 20; 30]).
  - reflexivity.
  - reflexivity.
  - vm_compute. lia.
  - reflexivity.
  - simpl. lia.
  - vm_compute. reflexivity.
  - repeat constructor; lia.
Defined.



(** ** The bound on [colors] *)

Lemma copy_ok self : copy self = inr self.
Proof. unfold copy. rewrite default_ok. by destruct self. Qed.

(** [getcolor] never touches [rawmode], and either leaves [colors] as it
    was or, on a structured palette with a free slot, adds one tuple
    under the next index. *)
Lemma getcolor_colors arg self :
  rawmode (getcolor arg self).2 = rawmode self
  ∧ (colors (getcolor arg self).2 = colors self
     ∨ truthy_str (rawmode self) = false
       ∧ (size (colors self) < 256)%nat
       ∧ ∃ color, arg = ColorTuple color
                  ∧ colors self !! color = None
                  ∧ colors (getcolor arg self).2
                    = <[color := size (colors self)]> (colors self)).
Proof.
  destruct (truthy_str (rawmode self)) eqn:Hraw.
  { rewrite getcolor_raw by done. auto. }
  destruct arg as [color|repr].
  2:{ unfold getcolor, bind, get_self. rewrite Hraw. auto. }
  destruct (colors self !! color) as [i|] eqn:Hlook.
  { rewrite (getcolor_hit _ i) by done. auto. }
  destruct (decide (size (colors self) < 256)%nat) as [Hfree|Hfull].
  - destruct (getcolor_alloc_fields color self Hraw Hlook Hfree)
      as (_ & _ & Hr & Hc).
    split; [done|]. right. eauto 10.
  - rewrite getcolor_full by (done || lia). simpl.
    destruct (thawed_fields self) as (_ & _ & Hr & Hc & _). auto.
Qed.

(** Every reachable palette holds at most 256 colors, and none at all
    when it is raw. *)
Lemma reachable_inv self :
  reachable self →
  (size (colors self) ≤ 256)%nat
  ∧ (truthy_str (rawmode self) = true → colors self = ∅).
Proof.
  induction 1 as [m chs pal sz self Hinit|tag data self Hraw
                 |arg self _ [IHsize IHraw]|self new _ IH Hcopy].
  - destruct (init_result m chs pal sz) as [[_ E]|[_ E]];
      rewrite E in Hinit; [discriminate|].
    injection Hinit as <-. simpl. split; [|done].
    rewrite map_size_empty. lia.
  - rewrite raw_ok in Hraw. injection Hraw as <-. simpl.
    split; [|done]. rewrite map_size_empty. lia.
  - destruct (getcolor_colors arg self)
      as [Hr [Hc|(Hstruct & Hfree & color & _ & Hmiss & Hc)]];
      rewrite Hr, Hc.
    + done.
    + split; [|congruence].
      rewrite map_size_insert_None by done. lia.
  - rewrite copy_ok in Hcopy. by injection Hcopy as <-.
Qed.

Lemma buffer_setitem_not_full b i v e :
  buffer_setitem b i v = inl e → e ≠ PaletteFullError.
Proof.
  destruct b as [data|data|data]; simpl;
    repeat match goal with
           | |- context [if ?c then _ else _] => destruct c
           end;
    intros [= <-]; discriminate.
Qed.

Lemma palette_setitem_not_full i v self e self' :
  palette_setitem i v self = (inl e, self') → e ≠ PaletteFullError.
Proof.
  unfold palette_setitem, bind, get_self, lift, assign.
  destruct (buffer_setitem (palette self) i v) eqn:E; intros [= <- _].
  by eapply buffer_setitem_not_full.
Qed.

(** The stores never raise the error of the size check. *)
Lemma store_components_not_full color index self e self' :
  store_components color index self = (inl e, self') →
  e ≠ PaletteFullError.
Proof.
  unfold store_components, bind, tuple_getitem, raise, ret, assign.
  repeat (match goal with
          | |- context [match ?l !! ?i with _ => _ end] =>
              destruct (l !! i)
          | |- context [palette_setitem ?i ?v ?s] =>
              let E := fresh "E" in
              destruct (palette_setitem i v s) as [[?|[]] ?] eqn:E;
              [apply palette_setitem_not_full in E|]
          end; cbv beta iota);
    intros H; first [discriminate H | by injection H as <- _].
Qed.

(** Successive [getcolor] calls, outcomes dropped. *)
Definition getcolor_all (cs : list (list Z)) (self : ImagePalette)
  : ImagePalette :=
  foldl (λ self color, (getcolor (ColorTuple color) self).2) self cs.

Lemma reachable_getcolor_all cs self :
  reachable self → reachable (getcolor_all cs self).
Proof.
  revert self. induction cs as [|c cs IH]; intros self Hself; [done|].
  simpl. apply IH. by apply reach_getcolor.
Qed.

(** The 256 colors [(i, 0, 0)]. *)
Definition shades : list (list Z) := (λ i, [Z.of_nat i; 0; 0]) <$> seq 0 256.

(** C4, amended. On every palette reachable from the constructors through
    [getcolor] calls and copies, [colors] holds at most 256 entries. With
    255 colors allocated, [getcolor] on a new tuple passes the size check
    and records the tuple under index 255, which makes 256 entries; it
    returns 255 when the tuple has at least three components, all bytes,
    and the buffer has 256 entries per component. With 256 colors
    allocated, [getcolor] on a new tuple fails with [PaletteFullError] and
    leaves [colors], the buffer contents and the dirty flag as they
    were. *)
Theorem colors_never_exceed_256 self :
  reachable self →
  (size (colors self) ≤ 256)%nat
  ∧ (∀ color,
       colors self !! color = None → size (colors self) = 255%nat →
       ∃ r self',
         getcolor (ColorTuple color) self = (r, self')
         ∧ r ≠ inl PaletteFullError
         ∧ colors self' = <[color := 255%nat]> (colors self)
         ∧ size (colors self') = 256%nat
         ∧ ((3 ≤ length color)%nat →
            Forall (λ v, 0 ≤ v ≤ 255) color →
            (256 * length color ≤ length (buffer_data (palette self)))%nat →
            r = inr 255%nat))
  ∧ (∀ color,
       colors self !! color = None → size (colors self) = 256%nat →
       ∃ self',
         getcolor (ColorTuple color) self = (inl PaletteFullError, self')
         ∧ colors self' = colors self
         ∧ buffer_data (palette self') = buffer_data (palette self)
         ∧ dirty self' = dirty self).
Proof.
  intros Hreach. destruct (reachable_inv self Hreach) as [Hsize Hrawempty].
  assert (size (colors self) ≠ 0%nat → truthy_str (rawmode self) = false)
    as Hstruct.
  { intros Hne. destruct (truthy_str (rawmode self)); [|done].
    rewrite Hrawempty, map_size_empty in Hne; done. }
  split; [done|]. split.
  - intros color Hmiss H255.
    assert (truthy_str (rawmode self) = false) as Hraw by (apply Hstruct; lia).
    assert (size (colors self) < 256)%nat as Hfree by lia.
    destruct (getcolor_alloc_fields color self Hraw Hmiss Hfree)
      as (_ & _ & _ & Hc).
    destruct (getcolor (ColorTuple color) self) as [r self'] eqn:Hrun.
    simpl in Hc. rewrite H255 in Hc.
    exists r, self'. split; [done|].
    rewrite getcolor_alloc in Hrun by done. split; [|split; [done|split]].
    + intros ->. by apply store_components_not_full in Hrun.
    + rewrite Hc, map_size_insert_None by done. lia.
    + intros Hlen Hbytes Hbuf.
      destruct (thawed_fields self) as (_ & _ & _ & _ & _ & Hdata & Hthaw).
      destruct (store_components_spec color (size (colors self))
                  (set_colors
                     (<[color := size (colors self)]> (colors self))
                     (thawed self)))
        as (self2 & Hrun2 & _); try done.
      { eapply Forall_impl; [exact Hbytes|].
        intros v Hv. by apply is_byte_spec. }
      { cbn [palette set_colors]. by rewrite Hdata. }
      destruct (decide (3 ≤ length color)%nat) as [_|]; [|lia].
      rewrite Hrun in Hrun2. injection Hrun2 as -> _. by rewrite H255.
  - intros color Hmiss H256.
    assert (truthy_str (rawmode self) = false) as Hraw by (apply Hstruct; lia).
    rewrite getcolor_full by (done || lia).
    destruct (thawed_fields self) as (_ & _ & _ & Hc & Hd & Hdata & _).
    by exists (thawed self).
Qed.

Lemma colors_never_exceed_256_witness :
  let start :=
    mkImagePalette "RGB" [PStr "R"; PStr "G"; PStr "B"] None
      (PyByteArray (seq_mul ramp 3)) ∅ None in
  let self255 := getcolor_all (take 255 shades) start in
  let self256 := getcolor_all shades start in
  size (colors self255) = 255%nat
  ∧ (∃ self', getcolor (ColorTuple [255; 0; 0]) self255 = (inr 255%nat, self')
              ∧ size (colors self') = 256%nat)
  ∧ size (colors self256) = 256%nat
  ∧ (∃ self', getcolor (ColorTuple [0; 0; 1]) self256
              = (inl PaletteFullError, self')
              ∧ colors self' = colors self256).
Proof.
  intros start self255 self256.
  assert (reachable start) as Hstart.
  { apply (reach_init "RGB" None None 0). apply default_ok. }
  assert (size (colors self255) = 255%nat) as H255
    by (vm_compute; reflexivity).
  assert (size (colors self256) = 256%nat) as H256
    by (vm_compute; reflexivity).
  split; [exact H255|]. split; [|split; [exact H256|]].
  - destruct (colors_never_exceed_256 self255) as (_ & Halloc & _).
    { apply reachable_getcolor_all. exact Hstart. }
    destruct (Halloc [255; 0; 0]) as (r & self' & Hrun & _ & _ & Hsz & Hret).
    { vm_compute. reflexivity. }
    { exact H255. }
    exists self'. split; [|exact Hsz].
    rewrite <- Hret; [exact Hrun| | |].
    + apply Nat.leb_le. reflexivity.
    + repeat constructor; apply Z.leb_le; reflexivity.
    + apply Nat.leb_le. vm_compute. reflexivity.
  - destruct (colors_never_exceed_256 self256) as (_ & _ & Hfull).
    { apply reachable_getcolor_all. exact Hstart. }
    destruct (Hfull [0; 0; 1]) as (self' & Hrun & Hc & _).
    { vm_compute. reflexivity. }
    { exact H256. }
    exists self'. split; [exact Hrun|exact Hc].
Defined.

(** The default two-channel palette, [ImagePalette("LA")]. *)
Definition LA_start : ImagePalette :=
  mkImagePalette "LA" [PStr "L"; PStr "A"] None
    (PyByteArray (seq_mul ramp 2)) ∅ None.

(** The 255 two-tuples [(i, 0)]. *)
Definition LA_pairs : list (list Z) := (λ i, [Z.of_nat i; 0]) <$> seq 0 255.

(** C4, counterexample. On the default "LA" palette, [getcolor] with the
    255 tuples [(i, 0)] records each of them (every call raises after the
    recording). The palette reached has 255 colors, the tuple [(255, 0)] is
    new, and the call that allocates this 256th color does not succeed: it
    raises [IndexError]. *)
Lemma getcolor_256th_raises_on_two_channels :
  ImagePalette_init "LA" None None 0 = inr LA_start
  ∧ reachable (getcolor_all LA_pairs LA_start)
  ∧ size (colors (getcolor_all LA_pairs LA_start)) = 255%nat
  ∧ colors (getcolor_all LA_pairs LA_start) !! [255; 0] = None
  ∧ (getcolor (ColorTuple [255; 0]) (getcolor_all LA_pairs LA_start)).1
    = inl (IndexError "tuple index out of range")
  ∧ size (colors (getcolor (ColorTuple [255; 0])
                    (getcolor_all LA_pairs LA_start)).2) = 256%nat.
Proof.
  assert (ImagePalette_init "LA" None None 0 = inr LA_start) as Hinit.
  { rewrite init_default_buffer. reflexivity. }
  split; [exact Hinit|]. split.
  { apply reachable_getcolor_all.
    exact (reach_init "LA" None None 0 LA_start Hinit). }
  split; [vm_compute; reflexivity|]. split; [vm_compute; reflexivity|].
  split; vm_compute; reflexivity.
Qed.

(** * Further properties *)

(** ** [split_abbreviations]: general behaviour *)

(** The statements after the loop of [split_abbreviations]. *)
Definition split_finish (st : list string * string) : list string :=
  if negb (String.eqb st.2 EmptyString) then
    if bool_decide (st.2 ∈ st.1) then st.1 else st.1 ++ [st.2]
  else st.1.

Lemma split_abbreviations_unfold s :
  split_abbreviations s
  = split_finish (foldl split_step ([], EmptyString)
                    (list_ascii_of_string (split_head ";" s))).
Proof.
  unfold split_abbreviations, split_finish.
  by destruct (foldl _ _ _) as [abbreviations current_token].
Qed.

(** All the characters of [s] are lowercase letters. *)
Definition all_lower (s : string) : bool :=
  forallb char_islower (list_ascii_of_string s).

(** The shape of a label: one character, then lowercase letters only. *)
Definition label_shape (t : string) : Prop :=
  ∃ c rest, t = String c rest ∧ all_lower rest = true.

Lemma all_lower_add_char s c :
  all_lower s = true → char_islower c = true →
  all_lower (add_char s c) = true.
Proof.
  unfold all_lower, add_char. induction s as [|a s IH]; simpl.
  - intros _ ->. done.
  - intros [Ha Hs]%andb_true_iff Hc. rewrite Ha. simpl. by apply IH.
Qed.

Lemma label_shape_add_char t c :
  label_shape t → char_islower c = true → label_shape (add_char t c).
Proof.
  intros (a & rest & -> & Hrest) Hc. exists a, (add_char rest c).
  split; [done|]. by apply all_lower_add_char.
Qed.

Lemma label_shape_single c : label_shape (add_char EmptyString c).
Proof. by exists c, EmptyString. Qed.

(** The loop invariant: the labels emitted so far are distinct and
    well-shaped, and so is the pending token unless it is empty. *)
Definition split_inv (st : list string * string) : Prop :=
  NoDup st.1
  ∧ Forall label_shape st.1
  ∧ (st.2 = EmptyString ∨ label_shape st.2).

Lemma emit_inv abbreviations token :
  NoDup abbreviations → Forall label_shape abbreviations →
  label_shape token →
  let abbreviations' :=
    if bool_decide (token ∈ abbreviations) then abbreviations
    else abbreviations ++ [token] in
  NoDup abbreviations' ∧ Forall label_shape abbreviations'.
Proof.
  intros Hnd Hshape Htok. cbv zeta. case_bool_decide as Hin; [done|].
  split.
  - apply NoDup_app. split; [done|]. split; [|apply NoDup_singleton].
    intros x Hx ->%list_elem_of_singleton. done.
  - apply Forall_app. split; [done|]. by apply Forall_singleton.
Qed.

Lemma split_step_inv st char : split_inv st → split_inv (split_step st char).
Proof.
  destruct st as [abbreviations token]. intros (Hnd & Hshape & Htok).
  unfold split_step, split_inv. simpl in *.
  destruct token as [|a token].
  { simpl. split; [done|]. split; [done|]. right. apply label_shape_single. }
  destruct Htok as [?|Htok]; [done|].
  replace (String.eqb (String a token) EmptyString) with false by done.
  destruct (char_islower char) eqn:Hchar; simpl.
  { split; [done|]. split; [done|]. right.
    by apply (label_shape_add_char (String a token)). }
  destruct (negb (islower (String a token))); simpl.
  - destruct (emit_inv abbreviations (String a token)) as [H1 H2];
      try done.
    split; [done|]. split; [done|]. right. apply label_shape_single.
  - split; [done|]. split; [done|]. right. apply label_shape_single.
Qed.

Lemma split_loop_inv cs st : split_inv st → split_inv (foldl split_step st cs).
Proof.
  revert st. induction cs as [|c cs IH]; intros st Hst; [done|].
  simpl. apply IH. by apply split_step_inv.
Qed.

Lemma split_finish_inv st :
  split_inv st → NoDup (split_finish st) ∧ Forall label_shape (split_finish st).
Proof.
  destruct st as [abbreviations token]. intros (Hnd & Hshape & Htok).
  unfold split_finish. simpl in *.
  destruct token as [|a token]; [done|].
  destruct Htok as [?|Htok]; [done|].
  replace (String.eqb (String a token) EmptyString) with false by done.
  simpl. by apply emit_inv.
Qed.

(** X1. The labels returned by [split_abbreviations] are pairwise
    distinct, for every input string. *)
Theorem split_abbreviations_NoDup s : NoDup (split_abbreviations s).
Proof.
  rewrite split_abbreviations_unfold.
  apply split_finish_inv, split_loop_inv.
  split; [apply NoDup_nil_2|]. split; [done|]. by left.
Qed.

(** The string holds ASCII characters only (code points below 128), the
    strings on which [char_islower], [char_isupper] and [islower] are the
    methods of Python's [str]. *)
Definition is_ascii_string (s : string) : bool :=
  forallb (λ c, (nat_of_ascii c <? 128)%nat) (list_ascii_of_string s).

(** X2. For every ASCII input string, every label returned by
    [split_abbreviations] is one character followed by lowercase letters
    only; in particular no label is empty and no label contains an
    uppercase letter, a digit or a semicolon after its first character. *)
Theorem split_abbreviations_label_shape s t :
  is_ascii_string s = true →
  t ∈ split_abbreviations s →
  ∃ c rest, t = String c rest ∧ all_lower rest = true.
Proof.
  intros _ Hin.
  assert (Forall label_shape (split_abbreviations s)) as Hall.
  { rewrite split_abbreviations_unfold.
    apply split_finish_inv, split_loop_inv.
    split; [apply NoDup_nil_2|]. split; [done|]. by left. }
  rewrite Forall_forall in Hall. by apply Hall.
Qed.

Lemma split_abbreviations_label_shape_witness :
  ∃ c rest, "Cb"%string = String c rest ∧ all_lower rest = true.
Proof.
  apply (split_abbreviations_label_shape "YCbCr" "Cb").
  - reflexivity.
  - apply (bool_decide_unpack ("Cb"%string ∈ split_abbreviations "YCbCr")).
    vm_compute. exact I.
Defined.

Lemma split_head_app_sep sep s t :
  split_head sep (String.append s (String sep t)) = split_head sep s.
Proof.
  induction s as [|c s IH]; simpl.
  - by rewrite Ascii.eqb_refl.
  - destruct (Ascii.eqb c sep); [done|]. by rewrite IH.
Qed.

(** X3. A raw-storage qualifier is ignored: whatever follows the first
    semicolon has no effect on the labels, and a string that starts with a
    semicolon, like the empty string, has no labels. *)
Theorem split_abbreviations_ignores_qualifier :
  (∀ s t,
     split_abbreviations (String.append s (String ";" t))
     = split_abbreviations s)
  ∧ (∀ t, split_abbreviations (String ";" t) = [])
  ∧ split_abbreviations EmptyString = [].
Proof.
  assert (∀ s t,
            split_abbreviations (String.append s (String ";" t))
            = split_abbreviations s) as H.
  { intros s t. rewrite !split_abbreviations_unfold.
    rewrite split_head_app_sep.
    assert (split_head ";" (split_head ";" s) = split_head ";" s) as Hidem.
    { induction s as [|c s IH]; simpl; [done|].
      destruct (Ascii.eqb c ";") eqn:E; simpl; [done|]. by rewrite E, IH. }
    done. }
  split; [exact H|]. split; [|reflexivity].
  intros t. apply (H EmptyString t).
Qed.

Lemma lower_not_upper c : char_islower c = true → char_isupper c = false.
Proof.
  unfold char_islower, char_isupper. cbv zeta.
  generalize (nat_of_ascii c). intros n.
  intros [H1 H2]%andb_true_iff. apply Nat.leb_le in H1, H2.
  apply andb_false_iff. right. apply Nat.leb_gt. lia.
Qed.

Lemma lower_not_sep c : char_islower c = true → Ascii.eqb c ";" = false.
Proof.
  intros H. destruct (Ascii.eqb_spec c ";") as [->|]; [|done].
  vm_compute in H. discriminate.
Qed.

Lemma list_ascii_of_string_app s t :
  list_ascii_of_string (String.append s t)
  = list_ascii_of_string s ++ list_ascii_of_string t.
Proof. induction s as [|c s IH]; simpl; [done|]. by rewrite IH. Qed.

Lemma all_lower_islower p :
  all_lower p = true → p ≠ EmptyString → islower p = true.
Proof.
  unfold all_lower, islower. cbv zeta.
  destruct p as [|c p]; [done|]. intros H _. simpl in H |- *.
  apply andb_true_iff in H as [Hc Hp]. rewrite Hc, (lower_not_upper c Hc).
  simpl. apply negb_true_iff.
  induction p as [|a p IH]; simpl in *; [done|].
  apply andb_true_iff in Hp as [Ha Hp]. rewrite (lower_not_upper a Ha).
  by apply IH.
Qed.

Lemma split_head_lower p rest :
  all_lower p = true →
  split_head ";" (String.append p rest)
  = String.append p (split_head ";" rest).
Proof.
  unfold all_lower. induction p as [|c p IH]; simpl; [done|].
  intros [Hc Hp]%andb_true_iff. rewrite (lower_not_sep c Hc).
  by rewrite IH.
Qed.

Lemma string_app_empty_r s : String.append s EmptyString = s.
Proof.
  induction s as [|c s IH]; [done|].
  change (String c (String.append s EmptyString) = String c s).
  by rewrite IH.
Qed.

Lemma string_app_assoc s t u :
  String.append (String.append s t) u = String.append s (String.append t u).
Proof.
  induction s as [|c s IH]; [done|].
  change (String c (String.append (String.append s t) u)
          = String c (String.append s (String.append t u))).
  by rewrite IH.
Qed.

(** Lowercase letters extend a pending token. *)
Lemma split_step_lower abbreviations c token a :
  char_islower a = true →
  split_step (abbreviations, String c token) a
  = (abbreviations, String c (add_char token a)).
Proof.
  intros Ha. unfold split_step.
  replace (String.eqb (String c token) EmptyString) with false by done.
  by rewrite Ha.
Qed.

Lemma split_loop_lower abbreviations c token p :
  all_lower p = true →
  foldl split_step (abbreviations, String c token) (list_ascii_of_string p)
  = (abbreviations, String.append (String c token) p).
Proof.
  unfold all_lower. revert token.
  induction p as [|a p IH]; intros token; cbn [list_ascii_of_string forallb].
  - intros _. by rewrite string_app_empty_r.
  - intros [Ha Hp]%andb_true_iff. cbn [foldl].
    rewrite split_step_lower, IH by done. f_equal.
    change (String c (String.append (add_char token a) p)
            = String c (String.append token (String a p))).
    unfold add_char. by rewrite string_app_assoc.
Qed.

(** X4. A non-empty mode string made of lowercase letters only is returned
    whole, as its single label: the token pending at the end of the scan is
    emitted without the all-lowercase test. *)
Theorem split_abbreviations_all_lowercase s :
  s ≠ EmptyString → all_lower s = true → split_abbreviations s = [s].
Proof.
  intros Hne Hlow. rewrite split_abbreviations_unfold.
  pose proof (split_head_lower s EmptyString Hlow) as Hhead.
  simpl in Hhead. rewrite !string_app_empty_r in Hhead. rewrite Hhead.
  destruct s as [|c s]; [done|].
  unfold all_lower in Hlow. cbn [list_ascii_of_string forallb] in Hlow.
  apply andb_true_iff in Hlow as [_ Hs].
  cbn [list_ascii_of_string foldl].
  change (split_step ([], EmptyString) c) with ([] : list string, String c EmptyString).
  rewrite split_loop_lower by done. reflexivity.
Qed.

Lemma split_abbreviations_all_lowercase_witness :
  split_abbreviations "gray" = ["gray"%string].
Proof.
  apply split_abbreviations_all_lowercase; [discriminate|reflexivity].
Defined.

(** X5. On ASCII strings, a leading run of lowercase letters is dropped
    when a character that is neither a lowercase letter nor the semicolon
    follows it: the labels are those of the rest of the string. *)
Theorem split_abbreviations_drops_lowercase_prefix p c rest :
  all_lower p = true →
  is_ascii_string (String c rest) = true →
  char_islower c = false → c ≠ ";"%char →
  split_abbreviations (String.append p (String c rest))
  = split_abbreviations (String c rest).
Proof.
  intros Hp _ Hc Hsep. rewrite !split_abbreviations_unfold.
  rewrite split_head_lower by done. simpl.
  apply Ascii.eqb_neq in Hsep. rewrite Hsep.
  rewrite list_ascii_of_string_app, foldl_app.
  destruct p as [|a p]; [done|].
  pose proof Hp as Hp'. unfold all_lower in Hp'.
  cbn [list_ascii_of_string forallb] in Hp'.
  apply andb_true_iff in Hp' as [Ha Hp'].
  cbn [list_ascii_of_string foldl].
  change (split_step ([], EmptyString) a)
    with ([] : list string, String a EmptyString).
  rewrite split_loop_lower by done.
  change (String.append (String a EmptyString) p) with (String a p).
  f_equal. unfold split_step.
  replace (String.eqb (String a p) EmptyString) with false by done.
  rewrite Hc. by rewrite (all_lower_islower (String a p)).
Qed.

Lemma split_abbreviations_drops_lowercase_prefix_witness :
  split_abbreviations (String.append "lin" "RGB")
  = split_abbreviations "RGB".
Proof.
  apply (split_abbreviations_drops_lowercase_prefix "lin" "R" "GB").
  - reflexivity.
  - reflexivity.
  - reflexivity.
  - discriminate.
Defined.

(** ** The remaining factories *)

(** What a factory can raise besides the exceptions of the class. *)
Inductive raised : Type :=
| NotImplementedError
| IOError (msg : string)
| Raised (e : exn).

Definition make_linear_lut (black white : Z) : raised + list Z :=
  if black =? 0 then inr ((λ i, white * i / 255) <$> range 256)
  else inl NotImplementedError.

Definition from_result {A} (r : result A) : raised + A :=
  match r with
  | inr a => inr a
  | inl e => inl (Raised e)
  end.

(** [sepia(white)], from the triple [ImageColor.getrgb(white)] resolves the
    colour to; the three tables are the second positional argument of the
    constructor. *)
Definition sepia (rgb : Z * Z * Z) : raised + ImagePalette :=
  let '(r, g, b) := rgb in
  match make_linear_lut 0 r with
  | inl e => inl e
  | inr r =>
      match make_linear_lut 0 g with
      | inl e => inl e
      | inr g =>
          match make_linear_lut 0 b with
          | inl e => inl e
          | inr b =>
              from_result
                (ImagePalette_init "RGB" (Some (PInt <$> r ++ g ++ b)) None 0)
          end
      end
  end.

(** [random(mode)]; [randint k] is the value of the [k]-th call of
    [randint(0, 255)]. *)
Definition random (randint : nat → Z) (mode : string) : result ImagePalette :=
  let palette := randint <$> seq 0 (256 * length (split_abbreviations mode)) in
  ImagePalette_init mode (Some (PInt <$> palette)) None 0.

Lemma make_linear_lut_ok white :
  make_linear_lut 0 white = inr ((λ i, white * i / 255) <$> range 256).
Proof. reflexivity. Qed.

(** X6. [make_linear_lut(0, white)] returns 256 entries, the first being 0
    and the last [white], the entry at [i] being [white * i // 255]; with
    any other [black] it raises [NotImplementedError]. *)
Theorem make_linear_lut_table :
  (∀ white, ∃ lut,
     make_linear_lut 0 white = inr lut
     ∧ length lut = 256%nat
     ∧ lut !! 0%nat = Some 0
     ∧ lut !! 255%nat = Some white
     ∧ ∀ i, (i < 256)%nat → lut !! i = Some (white * Z.of_nat i / 255))
  ∧ (∀ black white,
       black ≠ 0 → make_linear_lut black white = inl NotImplementedError).
Proof.
  split.
  - intros white. eexists. split; [apply make_linear_lut_ok|].
    assert (∀ i, (i < 256)%nat →
              ((λ i, white * i / 255) <$> range 256) !! i
              = Some (white * Z.of_nat i / 255)) as Hlook.
    { intros i Hi. by rewrite list_lookup_fmap, range_lookup. }
    split; [by rewrite length_fmap, range_length|].
    split; [rewrite Hlook by lia; f_equal;
            change (Z.of_nat 0) with 0; by rewrite Z.mul_0_r|].
    split; [|exact Hlook].
    rewrite Hlook by lia. f_equal. change (Z.of_nat 255) with 255.
    by apply Z.div_mul.
  - intros black white Hb. unfold make_linear_lut.
    apply Z.eqb_neq in Hb. by rewrite Hb.
Qed.

(** X7. For a white level between 0 and 255, the entries of
    [make_linear_lut(0, white)] are nondecreasing and lie between 0 and
    [white]: they are bytes. *)
Theorem make_linear_lut_monotone white lut :
  0 ≤ white ≤ 255 →
  make_linear_lut 0 white = inr lut →
  (∀ i v, lut !! i = Some v → 0 ≤ v ≤ white)
  ∧ (∀ i j v w, (i ≤ j)%nat → lut !! i = Some v → lut !! j = Some w → v ≤ w).
Proof.
  intros Hw Hlut. rewrite make_linear_lut_ok in Hlut. injection Hlut as <-.
  assert (∀ i v, ((λ i, white * i / 255) <$> range 256) !! i = Some v →
            (i < 256)%nat ∧ v = white * Z.of_nat i / 255) as Hlook.
  { intros i v Hv. pose proof (lookup_lt_Some _ _ _ Hv) as Hi.
    rewrite length_fmap, range_length in Hi. split; [done|].
    rewrite list_lookup_fmap, range_lookup in Hv by done.
    by injection Hv as <-. }
  split.
  - intros i v [Hi ->]%Hlook. split.
    + apply Z.div_pos; lia.
    + apply Z.div_le_upper_bound; nia.
  - intros i j v w Hij [Hi ->]%Hlook [Hj ->]%Hlook.
    apply Z.div_le_mono; nia.
Qed.

Lemma make_linear_lut_monotone_witness :
  ∃ lut,
    make_linear_lut 0 192 = inr lut
    ∧ (∀ i v, lut !! i = Some v → 0 ≤ v ≤ 192)
    ∧ (∀ i j v w, (i ≤ j)%nat →
         lut !! i = Some v → lut !! j = Some w → v ≤ w).
Proof.
  eexists. split; [apply make_linear_lut_ok|].
  apply (make_linear_lut_monotone 192); [lia|apply make_linear_lut_ok].
Defined.

(** A table handed to the constructor as [channels]: the object gets the
    default buffer, one ramp per table entry. *)
Lemma init_table_as_channels mode (table : list Z) :
  table ≠ [] →
  ImagePalette_init mode (Some (PInt <$> table)) None 0
  = inr (mkImagePalette mode (PInt <$> table) None
           (PyByteArray (seq_mul ramp (length table))) ∅ None).
Proof.
  intros Hne. rewrite init_default_buffer.
  assert (channels_or_split (Some (PInt <$> table)) mode = PInt <$> table)
    as ->.
  { unfold channels_or_split. by destruct table. }
  by rewrite length_fmap.
Qed.

(** X8. [sepia] never fails once the colour is resolved, and the colour has
    no effect on the buffer: the three linear tables, concatenated, become
    the 768 entries of [channels], and the buffer is the identity ramp
    repeated 768 times, whose entry at index [i] of each of the channels R,
    G and B is [i]. *)
Theorem sepia_buffer_ignores_white r g b :
  ∃ self table_r table_g table_b,
    sepia (r, g, b) = inr self
    ∧ make_linear_lut 0 r = inr table_r
    ∧ make_linear_lut 0 g = inr table_g
    ∧ make_linear_lut 0 b = inr table_b
    ∧ mode self = "RGB"%string
    ∧ channels self = PInt <$> table_r ++ table_g ++ table_b
    ∧ length (channels self) = 768%nat
    ∧ palette self = PyByteArray (seq_mul ramp 768)
    ∧ ∀ c i, (c < 3)%nat → (i < 256)%nat →
        buffer_data (palette self) !! (c * 256 + i)%nat = Some (Z.of_nat i).
Proof.
  unfold sepia. rewrite !make_linear_lut_ok.
  set (table := _ ++ _ ++ _).
  assert (length table = 768%nat) as Hlen.
  { subst table. by rewrite !length_app, !length_fmap, !range_length. }
  rewrite init_table_as_channels.
  2:{ intros E. by rewrite E in Hlen. }
  eexists _, _, _, _. split; [reflexivity|].
  split; [reflexivity|]. split; [reflexivity|]. split; [reflexivity|].
  cbn [mode channels palette buffer_data].
  rewrite length_fmap, Hlen. split; [done|]. split; [done|].
  split; [done|]. split; [done|].
  intros c i Hc Hi. apply default_buffer_lookup; lia.
Qed.

(** A table of [256 * C] values handed to the constructor as [channels],
    [C] being the number of labels of the mode string: [channels] is the
    table (empty, like the labels, when [C = 0]). *)
Lemma table_channels mode (table : list Z) :
  length table = (256 * length (split_abbreviations mode))%nat →
  channels_or_split (Some (PInt <$> table)) mode = PInt <$> table.
Proof.
  intros Hlen. unfold channels_or_split. destruct table as [|v table].
  - cbn [length] in Hlen.
    destruct (split_abbreviations mode); [done|]. cbn [length] in Hlen. lia.
  - done.
Qed.

Lemma table_channels_length mode (table : list Z) :
  length table = (256 * length (split_abbreviations mode))%nat →
  length (channels_or_split (Some (PInt <$> table)) mode) = length table.
Proof.
  intros Hlen. unfold channels_or_split. destruct table as [|v table].
  - change (length (PStr <$> split_abbreviations mode) = 0%nat).
    rewrite length_fmap. cbn [length] in Hlen. lia.
  - change (length (PInt <$> v :: table) = length (v :: table)).
    by rewrite length_fmap.
Qed.

(** X9. For every mode string with [C] labels, [wedge], [negative] and
    [random] succeed and build the same buffer: their table of [256 * C]
    values (the ramp, the reversed ramp, the values drawn) becomes
    [channels], and the buffer is the identity ramp repeated [256 * C]
    times (65536 * C entries), whatever the table holds. *)
Theorem factories_share_default_buffer randint mode :
  let C := length (split_abbreviations mode) in
  let n := (256 * C)%nat in
  ∃ w ng r,
    wedge mode = inr w ∧ negative mode = inr ng
    ∧ random randint mode = inr r
    ∧ channels w = PInt <$> seq_mul (range 256) C
    ∧ channels ng = PInt <$> seq_mul (reverse (range 256)) C
    ∧ channels r = PInt <$> (randint <$> seq 0 n)
    ∧ length (channels w) = n ∧ length (channels ng) = n
    ∧ length (channels r) = n
    ∧ palette w = PyByteArray (seq_mul ramp n)
    ∧ palette ng = palette w ∧ palette r = palette w
    ∧ length (buffer_data (palette w)) = (256 * n)%nat
    ∧ ∀ c i, (c < n)%nat → (i < 256)%nat →
        buffer_data (palette w) !! (c * 256 + i)%nat = Some (Z.of_nat i).
Proof.
  intros C n. unfold wedge, negative, random. rewrite !init_default_buffer.
  fold C. fold n.
  assert (length (seq_mul (range 256) C) = n) as Hw.
  { rewrite seq_mul_length, range_length. lia. }
  assert (length (seq_mul (reverse (range 256)) C) = n) as Hng.
  { rewrite seq_mul_length, length_reverse, range_length. lia. }
  assert (length (randint <$> seq 0 n) = n) as Hr.
  { by rewrite length_fmap, length_seq. }
  rewrite !table_channels by (rewrite ?Hw, ?Hng, ?Hr; done).
  eexists _, _, _. split; [reflexivity|]. split; [reflexivity|].
  split; [reflexivity|]. cbn [channels palette buffer_data].
  rewrite !length_fmap, Hw, Hng, length_seq.
  repeat split; try done.
  - rewrite default_buffer_length. lia.
  - intros c i Hc Hi. by apply default_buffer_lookup.
Qed.

Lemma forallb_is_byte data :
  forallb is_byte data = true ↔ Forall (λ v, is_byte v = true) data.
Proof.
  induction data as [|v data IH]; simpl; [by split; [constructor|]|].
  by rewrite andb_true_iff, Forall_cons, IH.
Qed.

Lemma ramp_bytes : Forall (λ v, is_byte v = true) ramp.
Proof. apply forallb_is_byte. vm_compute. reflexivity. Qed.

Lemma seq_mul_Forall {A} (P : A → Prop) l n :
  Forall P l → Forall P (seq_mul l n).
Proof.
  intros Hl. induction n as [|n IH]; [constructor|].
  rewrite seq_mul_S. by apply Forall_app.
Qed.

(** ** Sequences of [getcolor] calls *)

(** Successive [getcolor] calls with arbitrary arguments, outcomes
    dropped. *)
Definition getcolor_calls (args : list color_arg) (self : ImagePalette)
  : ImagePalette :=
  foldl (λ self arg, (getcolor arg self).2) self args.

(** A property of the object that a computation keeps, whether it returns
    or raises. *)
Definition keeps (P : ImagePalette → Prop) {A} (m : M A) : Prop :=
  ∀ self, P self → P (m self).2.

Lemma keeps_bind P {A B} (m : M A) (k : A → M B) :
  keeps P m → (∀ a, keeps P (k a)) → keeps P (bind m k).
Proof.
  intros Hm Hk self Hself. unfold bind. specialize (Hm self Hself).
  destruct (m self) as [[e|a] self1]; simpl in *; [done|].
  by apply Hk.
Qed.

Lemma keeps_ret P {A} (a : A) : keeps P (ret a).
Proof. by intros self. Qed.

Lemma keeps_tuple_getitem P color i : keeps P (tuple_getitem color i).
Proof. unfold tuple_getitem. by destruct (color !! i); intros self. Qed.

(** The four paths of [getcolor], for an arbitrary argument: the object is
    unchanged, or thawed, or goes through the stores. *)
Lemma getcolor_paths arg self :
  (getcolor arg self).2 = self
  ∨ (getcolor arg self).2 = thawed self
  ∨ ∃ color,
      arg = ColorTuple color
      ∧ truthy_str (rawmode self) = false
      ∧ colors self !! color = None
      ∧ (size (colors self) < 256)%nat
      ∧ getcolor arg self
        = store_components color (size (colors self))
            (set_colors (<[color := size (colors self)]> (colors self))
                        (thawed self)).
Proof.
  destruct (truthy_str (rawmode self)) eqn:Hraw.
  { rewrite getcolor_raw by done. auto. }
  destruct arg as [color|repr].
  2:{ unfold getcolor, bind, get_self. rewrite Hraw. auto. }
  destruct (colors self !! color) as [i|] eqn:Hlook.
  { rewrite (getcolor_hit _ i) by done. auto. }
  destruct (decide (size (colors self) < 256)%nat) as [Hfree|Hfull].
  - right. right. exists color. by rewrite getcolor_alloc.
  - rewrite getcolor_full by (done || lia). auto.
Qed.

(** [getcolor] never assigns [mode], [channels] or [rawmode]. *)
Lemma getcolor_fields arg self :
  mode (getcolor arg self).2 = mode self
  ∧ channels (getcolor arg self).2 = channels self
  ∧ rawmode (getcolor arg self).2 = rawmode self.
Proof.
  destruct (thawed_fields self) as (Hm & Hc & Hr & _).
  destruct (getcolor_paths arg self)
    as [->|[->|(color & -> & Hraw & Hmiss & Hfree & _)]]; [done..|].
  destruct (getcolor_alloc_fields color self Hraw Hmiss Hfree)
    as (? & ? & ? & _). done.
Qed.

Lemma getcolor_calls_fields args self :
  mode (getcolor_calls args self) = mode self
  ∧ channels (getcolor_calls args self) = channels self
  ∧ rawmode (getcolor_calls args self) = rawmode self.
Proof.
  revert self. induction args as [|arg args IH]; intros self; [done|].
  simpl. destruct (IH (getcolor arg self).2) as (-> & -> & ->).
  apply getcolor_fields.
Qed.

(** *** Buffers of bytes *)

Definition is_pylist (b : buffer) : bool :=
  match b with
  | PyList _ => true
  | _ => false
  end.

(** The buffer is a [bytes] or a [bytearray] of [n] bytes. *)
Definition byte_buffer (n : nat) (self : ImagePalette) : Prop :=
  is_pylist (palette self) = false
  ∧ length (buffer_data (palette self)) = n
  ∧ Forall (λ v, is_byte v = true) (buffer_data (palette self)).

Lemma buffer_setitem_bytes b i v b' :
  buffer_setitem b i v = inr b' →
  is_pylist b = false →
  Forall (λ v, is_byte v = true) (buffer_data b) →
  is_pylist b' = false
  ∧ length (buffer_data b') = length (buffer_data b)
  ∧ Forall (λ v, is_byte v = true) (buffer_data b').
Proof.
  destruct b as [data|data|data]; simpl; [done| |done].
  destruct (i <? length data)%nat; [|done].
  destruct (is_byte v) eqn:Hv; [|done].
  intros [= <-] _ Hbytes. simpl. split; [done|].
  split; [apply length_insert|by apply Forall_insert].
Qed.

Lemma keeps_palette_setitem_bytes n i v :
  keeps (byte_buffer n) (palette_setitem i v).
Proof.
  intros self (Hkind & Hlen & Hbytes).
  unfold palette_setitem, bind, get_self, lift, assign.
  destruct (buffer_setitem (palette self) i v) as [e|b'] eqn:E; simpl;
    [done|].
  destruct (buffer_setitem_bytes _ _ _ _ E Hkind Hbytes)
    as (Hkind' & Hlen' & Hbytes').
  unfold byte_buffer. cbn [palette set_palette].
  split; [done|]. split; [by rewrite Hlen'|done].
Qed.

Lemma keeps_store_components_bytes n color index :
  keeps (byte_buffer n) (store_components color index).
Proof.
  unfold store_components.
  repeat first
    [ apply keeps_tuple_getitem | apply keeps_palette_setitem_bytes
    | apply keeps_ret | by intros self
    | apply keeps_bind; [|intros ?] ].
Qed.

Lemma thawed_byte_buffer n self :
  byte_buffer n self → byte_buffer n (thawed self).
Proof.
  unfold thawed, byte_buffer.
  destruct (palette self) as [data|data|data] eqn:E; simpl; by rewrite ?E.
Qed.

Lemma getcolor_byte_buffer n arg self :
  byte_buffer n self → byte_buffer n (getcolor arg self).2.
Proof.
  intros Hself.
  destruct (getcolor_paths arg self)
    as [->|[->|(color & -> & _ & _ & _ & ->)]];
    [done|by apply thawed_byte_buffer|].
  apply keeps_store_components_bytes. by apply thawed_byte_buffer.
Qed.

(** X10. On a structured palette whose buffer is a [bytes] or a
    [bytearray] of [n] bytes, [tobytes] never fails, whatever [getcolor]
    calls (successful or not, with any arguments) came before: it returns
    the [n] bytes of the buffer, and [getdata] returns them with the tag
    [mode + ";L"]. *)
Theorem tobytes_total_on_byte_buffers n self args :
  truthy_str (rawmode self) = false →
  byte_buffer n self →
  ∃ bytes,
    tobytes (getcolor_calls args self) = inr bytes
    ∧ bytes = buffer_data (palette (getcolor_calls args self))
    ∧ length bytes = n
    ∧ Forall (λ v, 0 ≤ v ≤ 255) bytes
    ∧ getdata (getcolor_calls args self)
      = inr (String.append (mode self) ";L", PyBytes bytes).
Proof.
  intros Hraw Hself.
  assert (byte_buffer n (getcolor_calls args self)) as (Hkind & Hlen & Hbytes).
  { revert self Hraw Hself. induction args as [|arg args IH];
      intros self Hraw Hself; [done|].
    simpl. apply IH; [|by apply getcolor_byte_buffer].
    destruct (getcolor_fields arg self) as (_ & _ & ->). done. }
  destruct (getcolor_calls_fields args self) as (Hm & _ & Hr).
  assert (tobytes (getcolor_calls args self)
          = inr (buffer_data (palette (getcolor_calls args self)))) as Hto.
  { unfold tobytes, array_B. rewrite Hr, Hraw.
    destruct (is_bytes _); [done|].
    apply forallb_is_byte in Hbytes. by rewrite Hbytes. }
  eexists. split; [exact Hto|]. split; [done|]. split; [done|].
  split.
  - eapply Forall_impl; [exact Hbytes|]. intros v Hv. by apply is_byte_spec.
  - unfold getdata. by rewrite Hr, Hraw, Hto, Hm.
Qed.

Lemma tobytes_total_on_byte_buffers_witness :
  let self :=
    mkImagePalette "RGB" [PStr "R"; PStr "G"; PStr "B"] None
      (PyByteArray (seq_mul ramp 3)) ∅ None in
  let args := [ColorTuple [1; 2; 3]; ColorTuple [300; 0; 0]; ColorTuple [4];
               ColorOther "'red'"] in
  ∃ bytes,
    tobytes (getcolor_calls args self) = inr bytes
    ∧ bytes = buffer_data (palette (getcolor_calls args self))
    ∧ length bytes = 768%nat
    ∧ Forall (λ v, 0 ≤ v ≤ 255) bytes
    ∧ getdata (getcolor_calls args self)
      = inr ("RGB;L"%string, PyBytes bytes).
Proof.
  intros self args.
  apply (tobytes_total_on_byte_buffers 768 self args).
  - reflexivity.
  - split; [reflexivity|]. split; [vm_compute; reflexivity|].
    apply seq_mul_Forall, ramp_bytes.
Defined.

(** *** Which buffer entries [getcolor] can touch *)

(** A computation that keeps the buffer length and every entry whose
    offset is outside [J], whether it returns or raises. *)
Definition footprint (J : nat → Prop) {A} (m : M A) : Prop :=
  ∀ self,
    length (buffer_data (palette (m self).2))
    = length (buffer_data (palette self))
    ∧ ∀ j, ¬ J j →
        buffer_data (palette (m self).2) !! j
        = buffer_data (palette self) !! j.

Lemma footprint_bind J {A B} (m : M A) (k : A → M B) :
  footprint J m → (∀ a, footprint J (k a)) → footprint J (bind m k).
Proof.
  intros Hm Hk self. unfold bind. specialize (Hm self).
  destruct (m self) as [[e|a] self1]; simpl in *; [done|].
  destruct (Hk a self1) as [Hlen Hkeep]. destruct Hm as [Hlen1 Hkeep1].
  split; [congruence|]. intros j Hj. rewrite Hkeep by done. by apply Hkeep1.
Qed.

Lemma footprint_pure J {A} (m : M A) :
  (∀ self, palette (m self).2 = palette self) → footprint J m.
Proof. intros H self. by rewrite H. Qed.

Lemma footprint_tuple_getitem J color i : footprint J (tuple_getitem color i).
Proof.
  apply footprint_pure. intros self. unfold tuple_getitem.
  by destruct (color !! i).
Qed.

Lemma buffer_setitem_footprint b i v b' :
  buffer_setitem b i v = inr b' →
  length (buffer_data b') = length (buffer_data b)
  ∧ ∀ j, j ≠ i → buffer_data b' !! j = buffer_data b !! j.
Proof.
  destruct b as [data|data|data]; simpl; [done| |];
    destruct (i <? length data)%nat; try done;
    try (destruct (is_byte v); [|done]);
    intros [= <-]; simpl;
    (split; [apply length_insert|]); intros j Hj;
    by apply list_lookup_insert_ne.
Qed.

Lemma footprint_palette_setitem (J : nat → Prop) i v :
  J i → footprint J (palette_setitem i v).
Proof.
  intros Hi self. unfold palette_setitem, bind, get_self, lift, assign.
  destruct (buffer_setitem (palette self) i v) as [e|b'] eqn:E; simpl;
    [done|].
  destruct (buffer_setitem_footprint _ _ _ _ E) as [Hlen Hkeep].
  split; [done|]. intros j Hj. apply Hkeep. by intros ->.
Qed.

Lemma footprint_store_components color index :
  footprint (λ j, j = index ∨ j = (index + 256)%nat ∨ j = (index + 512)%nat)
    (store_components color index).
Proof.
  unfold store_components.
  repeat first
    [ apply footprint_tuple_getitem
    | apply footprint_palette_setitem; auto
    | apply footprint_pure; by intros self
    | apply footprint_bind; [|intros ?] ].
Qed.

(** [getcolor] keeps the buffer length, and touches at most the three
    entries at offsets [n], [n + 256] and [n + 512], where [n] is the
    number of colors allocated before the call. *)
Lemma getcolor_footprint arg self :
  length (buffer_data (palette (getcolor arg self).2))
  = length (buffer_data (palette self))
  ∧ ∀ j, j ≠ size (colors self) →
         j ≠ (size (colors self) + 256)%nat →
         j ≠ (size (colors self) + 512)%nat →
         buffer_data (palette (getcolor arg self).2) !! j
         = buffer_data (palette self) !! j.
Proof.
  destruct (thawed_fields self) as (_ & _ & _ & _ & _ & Hdata & _).
  destruct (getcolor_paths arg self)
    as [->|[->|(color & -> & _ & _ & _ & ->)]];
    [done|by rewrite Hdata|].
  destruct (footprint_store_components color (size (colors self))
              (set_colors (<[color := size (colors self)]> (colors self))
                 (thawed self))) as [Hlen Hkeep].
  cbn [palette set_colors] in Hlen, Hkeep. rewrite Hdata in Hlen, Hkeep.
  split; [done|]. intros j H0 H1 H2. apply Hkeep. lia.
Qed.

(** The stores read the first three components only. *)
Lemma store_components_take color index self :
  store_components color index self
  = store_components (take 3 color) index self.
Proof.
  unfold store_components, tuple_getitem.
  by rewrite !lookup_take_lt by lia.
Qed.

(** A tuple whose first three components are bytes. *)
Definition rgb_like (color : list Z) : Prop :=
  (3 ≤ length color)%nat ∧ Forall (λ v, 0 ≤ v ≤ 255) (take 3 color).

(** An allocation that succeeds: new tuple with three byte components,
    free slot, buffer with the three channels. *)
Lemma getcolor_alloc_rgb color self :
  truthy_str (rawmode self) = false →
  colors self !! color = None →
  (size (colors self) < 256)%nat →
  (768 ≤ length (buffer_data (palette self)))%nat →
  rgb_like color →
  ∃ self',
    getcolor (ColorTuple color) self = (inr (size (colors self)), self')
    ∧ colors self' = <[color := size (colors self)]> (colors self)
    ∧ rawmode self' = rawmode self
    ∧ dirty self' = Some 1
    ∧ length (buffer_data (palette self'))
      = length (buffer_data (palette self))
    ∧ ∀ c, (c < 3)%nat →
        buffer_data (palette self') !! (c * 256 + size (colors self))%nat
        = color !! c.
Proof.
  intros Hraw Hmiss Hfree Hbuf [Hlen Hbytes].
  pose proof (getcolor_alloc_fields color self Hraw Hmiss Hfree) as Hf.
  cbv zeta in Hf. rewrite getcolor_alloc in * by done.
  rewrite store_components_take in *.
  destruct (thawed_fields self) as (_ & _ & _ & _ & _ & Hdata & Hthaw).
  destruct (store_components_spec (take 3 color) (size (colors self))
              (set_colors (<[color := size (colors self)]> (colors self))
                 (thawed self)))
    as (self' & Hrun & Hdirty & _ & Hlen' & Hput & _); try done.
  { eapply Forall_impl; [exact Hbytes|]. intros v Hv. by apply is_byte_spec. }
  { cbn [palette set_colors]. rewrite Hdata, length_take_le by done. lia. }
  rewrite length_take_le in * by done.
  destruct (decide (3 ≤ 3)%nat) as [_|]; [|lia].
  cbn [palette set_colors] in Hlen', Hput. rewrite Hdata in Hlen'.
  rewrite Hrun in Hf |- *. simpl in Hf. destruct Hf as (_ & _ & Hr & Hcs).
  exists self'. repeat split; try done.
  intros c Hc. rewrite Hput by done. by apply lookup_take_lt.
Qed.

(** *** The indices handed out *)

(** X11. On every reachable palette the indices recorded in [colors] are
    below the number of colors allocated (hence at most 255), and two
    different tuples never share an index. *)
Theorem indices_below_count_and_distinct self :
  reachable self →
  (∀ color i, colors self !! color = Some i → (i < size (colors self))%nat)
  ∧ (∀ color1 color2 i,
       colors self !! color1 = Some i → colors self !! color2 = Some i →
       color1 = color2).
Proof.
  induction 1 as [m chs pal sz self Hinit|tag data self Hraw
                 |arg self _ [IHlt IHinj]|self new _ IH Hcopy].
  - destruct (init_result m chs pal sz) as [[_ E]|[_ E]];
      rewrite E in Hinit; [discriminate|].
    injection Hinit as <-. simpl. split; intros ?; by rewrite lookup_empty.
  - rewrite raw_ok in Hraw. injection Hraw as <-. simpl.
    split; intros ?; by rewrite lookup_empty.
  - destruct (getcolor_colors arg self)
      as [_ [Hc|(_ & _ & color & _ & Hmiss & Hc)]]; rewrite Hc; [done|].
    rewrite map_size_insert_None by done. split.
    + intros k i [[<- <-]|[_ Hk]]%lookup_insert_Some; [lia|].
      apply IHlt in Hk. lia.
    + intros k1 k2 i [[<- <-]|[Hne1 Hk1]]%lookup_insert_Some
        [[<- Hi]|[Hne2 Hk2]]%lookup_insert_Some; try done.
      * apply IHlt in Hk2. lia.
      * apply IHlt in Hk1. lia.
      * by eapply IHinj.
  - rewrite copy_ok in Hcopy. by injection Hcopy as <-.
Qed.

Lemma indices_below_count_and_distinct_witness :
  let self :=
    getcolor_all [[1; 2; 3]; [4; 5; 6]; [7]]
      (mkImagePalette "RGB" [PStr "R"; PStr "G"; PStr "B"] None
         (PyByteArray (seq_mul ramp 3)) ∅ None) in
  (∀ color i, colors self !! color = Some i → (i < size (colors self))%nat)
  ∧ (∀ color1 color2 i,
       colors self !! color1 = Some i → colors self !! color2 = Some i →
       color1 = color2).
Proof.
  intros self. apply (indices_below_count_and_distinct self).
  apply reachable_getcolor_all.
  apply (reach_init "RGB" None None 0). apply default_ok.
Defined.

(** The buffer agrees with [colors] on the tuples that have three byte
    components, and the indices are below the allocation count. *)
Definition consistent (self : ImagePalette) : Prop :=
  (768 ≤ length (buffer_data (palette self)))%nat
  ∧ (∀ color i, colors self !! color = Some i → (i < size (colors self))%nat)
  ∧ (∀ color i c,
       colors self !! color = Some i → rgb_like color → (c < 3)%nat →
       buffer_data (palette self) !! (c * 256 + i)%nat = color !! c).

Lemma getcolor_consistent arg self :
  consistent self → consistent (getcolor arg self).2.
Proof.
  intros (Hbuf & Hlt & Hagree).
  destruct (getcolor_footprint arg self) as [Hlen Hkeep].
  destruct (getcolor_colors arg self)
    as [_ [Hc|(Hraw & Hfree & color & -> & Hmiss & Hc)]].
  - split; [by rewrite Hlen|]. rewrite Hc. split; [done|].
    intros k i c Hk Hrgb Hc3. pose proof (Hlt k i Hk) as Hi.
    destruct (getcolor_paths arg self)
      as [->|[E|(color & -> & ? & Hmiss & ? & _)]].
    + by apply Hagree.
    + rewrite E. destruct (thawed_fields self)
        as (_ & _ & _ & _ & _ & -> & _). by apply Hagree.
    + destruct (getcolor_alloc_fields color self) as (_ & _ & _ & Hc');
        try done.
      rewrite Hc in Hc'. exfalso.
      pose proof (lookup_insert_eq (colors self) color (size (colors self)))
        as Hin.
      rewrite <- Hc' in Hin. by rewrite Hmiss in Hin.
  - split; [by rewrite Hlen|]. rewrite Hc.
    rewrite map_size_insert_None by done. split.
    + intros k i [[<- <-]|[_ Hk]]%lookup_insert_Some; [lia|].
      apply Hlt in Hk. lia.
    + intros k i c [[<- <-]|[Hne Hk]]%lookup_insert_Some Hrgb Hc3.
      * destruct (getcolor_alloc_rgb color self)
          as (self' & Hrun & _ & _ & _ & _ & Hput); try done.
        rewrite Hrun. simpl. by apply Hput.
      * pose proof (Hlt k i Hk) as Hi.
        rewrite Hkeep by lia. by apply Hagree.
Qed.

Lemma getcolor_calls_consistent args self :
  consistent self → consistent (getcolor_calls args self).
Proof.
  revert self. induction args as [|arg args IH]; intros self Hself; [done|].
  simpl. apply IH. by apply getcolor_consistent.
Qed.

(** X12. Starting from a palette with no color allocated and a buffer of
    at least three channels (768 entries), after any sequence of
    [getcolor] calls, every tuple recorded in [colors] whose first three
    components are bytes has these components in the buffer, at offsets
    [c * 256 + index] for [c = 0, 1, 2]: later calls, failed ones included,
    never overwrite the entries of an allocated color. *)
Theorem allocated_colors_persist self args color i c :
  colors self = ∅ →
  (768 ≤ length (buffer_data (palette self)))%nat →
  colors (getcolor_calls args self) !! color = Some i →
  (3 ≤ length color)%nat →
  Forall (λ v, 0 ≤ v ≤ 255) (take 3 color) →
  (c < 3)%nat →
  buffer_data (palette (getcolor_calls args self)) !! (c * 256 + i)%nat
  = color !! c.
Proof.
  intros Hempty Hbuf Hin Hlen Hbytes Hc.
  destruct (getcolor_calls_consistent args self) as (_ & _ & Hagree).
  { split; [done|]. rewrite Hempty. split; intros ?; by rewrite lookup_empty. }
  by apply Hagree.
Qed.

Lemma allocated_colors_persist_witness :
  let self :=
    mkImagePalette "RGB" [PStr "R"; PStr "G"; PStr "B"] None
      (PyByteArray (seq_mul ramp 3)) ∅ None in
  let args := [ColorTuple [10; 20; 30]; ColorTuple [4]; ColorTuple [300; 0; 0];
               ColorTuple [40; 50; 60]] in
  buffer_data (palette (getcolor_calls args self)) !! (1 * 256 + 0)%nat
  = [10; 20; 30] !! 1%nat.
Proof.
  intros self args.
  apply (allocated_colors_persist self args [10; 20; 30] 0 1).
  - reflexivity.
  - apply Nat.leb_le. vm_compute. reflexivity.
  - vm_compute. reflexivity.
  - apply Nat.leb_le. reflexivity.
  - repeat constructor; apply Z.leb_le; reflexivity.
  - apply Nat.ltb_lt. reflexivity.
Defined.

(** The outcomes of successive [getcolor] calls on tuples. *)
Fixpoint getcolor_results (cs : list (list Z)) (self : ImagePalette)
  : list (result nat) :=
  match cs with
  | [] => []
  | color :: cs =>
      (getcolor (ColorTuple color) self).1
        :: getcolor_results cs (getcolor (ColorTuple color) self).2
  end.

(** X13. On a structured palette with a buffer of at least 768 entries,
    allocating pairwise distinct new tuples with three byte components
    hands out consecutive indices, starting at the number of colors already
    allocated, as long as the total stays within 256. *)
Theorem getcolor_indices_sequential cs self :
  truthy_str (rawmode self) = false →
  (768 ≤ length (buffer_data (palette self)))%nat →
  NoDup cs →
  Forall (λ color, colors self !! color = None ∧ rgb_like color) cs →
  (size (colors self) + length cs ≤ 256)%nat →
  getcolor_results cs self
  = (λ i, inr i) <$> seq (size (colors self)) (length cs).
Proof.
  revert self. induction cs as [|color cs IH];
    intros self Hraw Hbuf Hnd Hnew Hroom; [done|].
  apply NoDup_cons in Hnd as [Hnotin Hnd].
  apply Forall_cons in Hnew as [[Hmiss Hrgb] Hnew].
  cbn [length] in Hroom.
  destruct (getcolor_alloc_rgb color self)
    as (self' & Hrun & Hc & Hr & _ & Hlen & _); try done; [lia|].
  cbn [getcolor_results length seq fmap list_fmap]. rewrite Hrun. simpl.
  f_equal. rewrite IH.
  - rewrite Hc, map_size_insert_None by done. done.
  - by rewrite Hr.
  - by rewrite Hlen.
  - done.
  - rewrite Hc. apply Forall_forall. intros k Hk.
    rewrite Forall_forall in Hnew. destruct (Hnew k Hk) as [Hkmiss Hkrgb].
    split; [|done]. rewrite lookup_insert_ne; [done|]. by intros ->.
  - rewrite Hc, map_size_insert_None by done. lia.
Qed.

Lemma getcolor_indices_sequential_witness :
  getcolor_results [[1; 2; 3]; [4; 5; 6]; [7; 8; 9]]
    (mkImagePalette "RGB" [PStr "R"; PStr "G"; PStr "B"] None
       (PyByteArray (seq_mul ramp 3)) ∅ None)
  = [inr 0%nat; inr 1%nat; inr 2%nat].
Proof.
  apply (getcolor_indices_sequential [[1; 2; 3]; [4; 5; 6]; [7; 8; 9]]).
  - reflexivity.
  - apply Nat.leb_le. vm_compute. reflexivity.
  - apply (bool_decide_unpack (NoDup [[1; 2; 3]; [4; 5; 6]; [7; 8; 9]])).
    vm_compute. exact I.
  - repeat (apply Forall_cons; split; [|]); try apply Forall_nil_2;
      (split; [reflexivity|]); (split; [apply Nat.leb_le; reflexivity|]);
      cbn [take];
      repeat (apply Forall_cons; split; [lia|]); apply Forall_nil_2.
  - apply Nat.leb_le. vm_compute. reflexivity.
Defined.

(** *** Components that are not bytes *)

Lemma palette_setitem_bytearray_rejects i v data self :
  palette self = PyByteArray data →
  (i < length data)%nat →
  is_byte v = false →
  palette_setitem i v self
  = (inl (ValueError "byte must be in range(0, 256)"), self).
Proof.
  intros Hpal Hi Hv. unfold palette_setitem, bind, get_self, lift.
  rewrite Hpal. simpl. apply Nat.ltb_lt in Hi. by rewrite Hi, Hv.
Qed.

(** X14. On a structured palette whose buffer is a [bytes] or a
    [bytearray] with at least one channel (256 entries), [getcolor] with a
    new tuple whose first component is outside 0..255 raises the
    [ValueError] of the [bytearray] item assignment. The tuple is recorded
    in [colors] all the same, the buffer contents and the dirty flag are
    unchanged, and the next call with this tuple returns the recorded
    index. *)
Theorem getcolor_rejects_non_byte self c0 rest :
  truthy_str (rawmode self) = false →
  is_pylist (palette self) = false →
  (256 ≤ length (buffer_data (palette self)))%nat →
  colors self !! (c0 :: rest) = None →
  (size (colors self) < 256)%nat →
  ¬ (0 ≤ c0 ≤ 255) →
  ∃ self',
    getcolor (ColorTuple (c0 :: rest)) self
    = (inl (ValueError "byte must be in range(0, 256)"), self')
    ∧ colors self' = <[c0 :: rest := size (colors self)]> (colors self)
    ∧ buffer_data (palette self') = buffer_data (palette self)
    ∧ dirty self' = dirty self
    ∧ getcolor (ColorTuple (c0 :: rest)) self'
      = (inr (size (colors self)), self').
Proof.
  intros Hraw Hkind Hbuf Hmiss Hfree Hc0.
  rewrite getcolor_alloc by done.
  destruct (thawed_fields self) as (_ & _ & Hr & _ & Hd & Hdata & Hthaw).
  set (self1 := set_colors _ (thawed self)).
  assert (∃ data, palette self1 = PyByteArray data
                  ∧ data = buffer_data (palette self)) as (data & Hpal & ->).
  { subst self1. cbn [palette set_colors]. unfold thawed.
    destruct (palette self) as [d|d|d] eqn:E; rewrite ?E in Hkind;
      simpl in *; rewrite ?E; [by exists d|by exists d|done]. }
  assert (is_byte c0 = false) as Hbad.
  { destruct (is_byte c0) eqn:E; [|done]. by apply is_byte_spec in E. }
  unfold store_components, bind at 1, tuple_getitem. cbn [lookup list_lookup].
  unfold ret at 1. cbv beta iota. unfold bind at 1.
  rewrite (palette_setitem_bytearray_rejects _ _ _ _ Hpal) by (done || lia).
  eexists. split; [reflexivity|]. subst self1.
  cbn [colors palette dirty set_colors].
  split; [done|]. split; [done|]. split; [done|].
  apply getcolor_hit; cbn [rawmode colors set_colors];
    [by rewrite Hr|]. apply lookup_insert_eq.
Qed.

Lemma getcolor_rejects_non_byte_witness :
  let self :=
    mkImagePalette "RGB" [PStr "R"; PStr "G"; PStr "B"] None
      (PyByteArray (seq_mul ramp 3)) ∅ None in
  ∃ self',
    getcolor (ColorTuple [256; 0; 0]) self
    = (inl (ValueError "byte must be in range(0, 256)"), self')
    ∧ colors self' = <[ [256; 0; 0] := size (colors self)]> (colors self)
    ∧ buffer_data (palette self') = buffer_data (palette self)
    ∧ dirty self' = dirty self
    ∧ getcolor (ColorTuple [256; 0; 0]) self'
      = (inr (size (colors self)), self').
Proof.
  intros self. apply (getcolor_rejects_non_byte self 256 [0; 0]).
  - reflexivity.
  - reflexivity.
  - apply Nat.leb_le. vm_compute. reflexivity.
  - reflexivity.
  - apply Nat.ltb_lt. vm_compute. reflexivity.
  - intros [_ H]. apply Z.leb_le in H. discriminate H.
Defined.

Lemma palette_setitem_list i v data self :
  palette self = PyList data →
  (i < length data)%nat →
  palette_setitem i v self
  = (inr tt, set_palette (PyList (<[i := v]> data)) self).
Proof.
  intros Hpal Hi. unfold palette_setitem, bind, get_self, lift, assign.
  rewrite Hpal. simpl. apply Nat.ltb_lt in Hi. by rewrite Hi.
Qed.

Lemma forallb_lookup {A} (f : A → bool) l i x :
  forallb f l = true → l !! i = Some x → f x = true.
Proof.
  revert i. induction l as [|a l IH]; intros i; [done|]. simpl.
  intros [Ha Hl]%andb_true_iff. destruct i as [|i]; simpl.
  - by intros [= <-].
  - by apply IH.
Qed.

(** X15. When the buffer is a [list], item assignment checks nothing:
    [getcolor] with a new tuple of three or more components succeeds even
    if one of the first three is outside 0..255, and from then on
    [tobytes] fails with [OverflowError]. *)
Theorem getcolor_list_buffer_takes_any_int self data color :
  truthy_str (rawmode self) = false →
  palette self = PyList data →
  (768 ≤ length data)%nat →
  colors self !! color = None →
  (size (colors self) < 256)%nat →
  (3 ≤ length color)%nat →
  ¬ Forall (λ v, 0 ≤ v ≤ 255) (take 3 color) →
  ∃ self',
    getcolor (ColorTuple color) self = (inr (size (colors self)), self')
    ∧ (∀ c, (c < 3)%nat →
         buffer_data (palette self') !! (c * 256 + size (colors self))%nat
         = color !! c)
    ∧ ∃ msg, tobytes self' = inl (OverflowError msg).
Proof.
  intros Hraw Hpal Hbuf Hmiss Hfree Hlen Hbad.
  rewrite getcolor_alloc by done.
  assert (thawed self = self) as -> by (unfold thawed; by rewrite Hpal).
  set (n := size (colors self)) in *.
  destruct color as [|c0 [|c1 [|c2 rest]]]; cbn [length] in Hlen; try lia.
  unfold store_components, bind, tuple_getitem, ret, assign.
  cbn [lookup list_lookup]. cbv beta iota.
  rewrite (palette_setitem_list n c0 data) by (done || lia). cbv beta iota.
  rewrite (palette_setitem_list (n + 256) c1 (<[n := c0]> data))
    by (done || rewrite length_insert; lia).
  cbv beta iota.
  rewrite (palette_setitem_list (n + 512) c2
             (<[(n + 256)%nat := c1]> (<[n := c0]> data)))
    by (done || rewrite !length_insert; lia).
  cbv beta iota. eexists. split; [reflexivity|].
  cbn [palette set_dirty set_palette set_colors rawmode buffer_data].
  assert (∀ c, (c < 3)%nat →
            <[(n + 512)%nat := c2]>
              (<[(n + 256)%nat := c1]> (<[n := c0]> data))
              !! (c * 256 + n)%nat
            = (c0 :: c1 :: c2 :: rest) !! c) as Hput.
  { intros [|[|[|c]]] Hc; try lia; cbn [lookup list_lookup];
      rewrite ?list_lookup_insert; repeat case_decide;
      rewrite ?length_insert in *; first [reflexivity | exfalso; lia]. }
  split; [exact Hput|].
  unfold tobytes, array_B.
  cbn [palette set_dirty set_palette set_colors rawmode buffer_data is_bytes].
  rewrite Hraw.
  destruct (forallb is_byte _) eqn:Hall; [|by eexists].
  exfalso. apply Hbad. cbn [take].
  repeat (apply Forall_cons; split); [| | |apply Forall_nil_2];
    apply is_byte_spec.
  - by apply (forallb_lookup _ _ _ _ Hall (Hput 0%nat ltac:(lia))).
  - by apply (forallb_lookup _ _ _ _ Hall (Hput 1%nat ltac:(lia))).
  - by apply (forallb_lookup _ _ _ _ Hall (Hput 2%nat ltac:(lia))).
Qed.

Lemma getcolor_list_buffer_takes_any_int_witness :
  let self :=
    mkImagePalette "RGB" [PStr "R"; PStr "G"; PStr "B"] None
      (PyList (seq_mul ramp 3)) ∅ None in
  ∃ self',
    getcolor (ColorTuple [0; 300; 0]) self = (inr (size (colors self)), self')
    ∧ (∀ c, (c < 3)%nat →
         buffer_data (palette self') !! (c * 256 + size (colors self))%nat
         = [0; 300; 0] !! c)
    ∧ ∃ msg, tobytes self' = inl (OverflowError msg).
Proof.
  intros self.
  apply (getcolor_list_buffer_takes_any_int self (seq_mul ramp 3)).
  - reflexivity.
  - reflexivity.
  - apply Nat.leb_le. vm_compute. reflexivity.
  - reflexivity.
  - apply Nat.ltb_lt. vm_compute. reflexivity.
  - apply Nat.leb_le. reflexivity.
  - cbn [take]. intros H.
    apply Forall_cons in H as [_ H]. apply Forall_cons in H as [[_ H] _].
    apply Z.leb_le in H. discriminate H.
Defined.

(** X16. The refusals of [getcolor] assign nothing. On a raw palette every
    call fails with [RawPaletteError], whatever the argument, so that any
    sequence of calls leaves the object as it was; on a structured palette
    a non-tuple argument fails with the unknown-specifier [ValueError]. *)
Theorem getcolor_refusals_assign_nothing :
  (∀ self args,
     truthy_str (rawmode self) = true →
     getcolor_calls args self = self
     ∧ Forall (λ arg, getcolor arg self = (inl RawPaletteError, self)) args)
  ∧ (∀ self repr,
       truthy_str (rawmode self) = false →
       getcolor (ColorOther repr) self
       = (inl (InvalidColorSpecifierError repr), self)).
Proof.
  split.
  - intros self args Hraw. split.
    + induction args as [|arg args IH]; [done|]. simpl.
      by rewrite getcolor_raw.
    + apply Forall_forall. intros arg _. by apply getcolor_raw.
  - intros self repr Hraw. unfold getcolor, bind, get_self. by rewrite Hraw.
Qed.

(** ** [save]: the text written *)

(** The concatenation of the strings written, in order. *)
Definition text_of (ws : list string) : string :=
  foldr String.append EmptyString ws.

Lemma text_of_app ws1 ws2 :
  text_of (ws1 ++ ws2) = String.append (text_of ws1) (text_of ws2).
Proof.
  induction ws1 as [|w ws1 IH]; [done|].
  change (String.append w (text_of (ws1 ++ ws2))
          = String.append (String.append w (text_of ws1)) (text_of ws2)).
  by rewrite IH, string_app_assoc.
Qed.

Lemma text_of_mjoin (wss : list (list string)) :
  text_of (mjoin wss) = text_of (text_of <$> wss).
Proof.
  induction wss as [|ws wss IH]; [done|].
  change (text_of (ws ++ mjoin wss)
          = String.append (text_of ws) (text_of (text_of <$> wss))).
  by rewrite text_of_app, IH.
Qed.

Lemma foldl_append_text acc ws :
  foldl String.append acc ws = String.append acc (text_of ws).
Proof.
  revert acc. induction ws as [|w ws IH]; intros acc.
  - simpl. by rewrite string_app_empty_r.
  - cbn [foldl]. rewrite IH.
    change (text_of (w :: ws)) with (String.append w (text_of ws)).
    by rewrite string_app_assoc.
Qed.

(** Line [i] of the dump: the index, then the [C] buffer entries from
    offset [i * C] on, then a newline. *)
Definition dump_line (self : ImagePalette) (i : nat) : string :=
  text_of
    (fmt_d (Z.of_nat i)
       :: ((λ c, save_item self (i * length (channels self) + c)%nat)
             <$> seq 0 (length (channels self)))
       ++ [nl]).

(** X17. On a structured palette, [save] to a file object open for writing
    text never fails, whatever the length of the buffer. It closes the file, and the
    text appended to what the file held is the two header lines followed by
    256 lines; line [i] lists the index [i] and then, for [c] from 0 to
    [C - 1], the buffer entry at offset [i * C + c], or 0 when the buffer
    has no such entry. *)
Theorem save_dumps_buffer_in_order self f :
  truthy_str (rawmode self) = false →
  closed f = false →
  ∃ fp,
    save self (File f) = inr fp
    ∧ closed fp = true
    ∧ written fp
      = String.append (written f)
          (text_of
             (String.append "# Palette" nl
                :: String.append "# Mode: " (String.append (mode self) nl)
                :: (dump_line self <$> seq 0 256)))
    ∧ (∀ j v, buffer_data (palette self) !! j = Some v →
         save_item self j = String.append " " (fmt_d v))
    ∧ (∀ j, (length (buffer_data (palette self)) ≤ j)%nat →
         save_item self j = " 0"%string).
Proof.
  intros Hraw Hopen. unfold save. rewrite Hraw, write_all_open by done.
  eexists. split; [reflexivity|]. split; [reflexivity|]. split; [|split].
  - cbn [written]. rewrite foldl_append_text. f_equal.
    unfold save_writes.
    change (text_of (?a :: ?b :: ?l))
      with (String.append a (String.append b (text_of l))).
    do 2 f_equal. rewrite text_of_mjoin. f_equal.
    rewrite <- list_fmap_compose. apply list_fmap_ext. intros _ i _.
    unfold compose, dump_line. by rewrite save_line_offsets.
  - intros j v Hv. unfold save_item. by rewrite Hv.
  - intros j Hj. unfold save_item.
    by rewrite (lookup_ge_None_2 _ _ Hj).
Qed.

Lemma save_dumps_buffer_in_order_witness :
  let self :=
    mkImagePalette "L" [PStr "L"] None (PyByteArray [7; 8; 9]) ∅ None in
  let f := mkFile "; dump" false in
  ∃ fp,
    save self (File f) = inr fp
    ∧ closed fp = true
    ∧ written fp
      = String.append (written f)
          (text_of
             (String.append "# Palette" nl
                :: String.append "# Mode: " (String.append (mode self) nl)
                :: (dump_line self <$> seq 0 256)))
    ∧ (∀ j v, buffer_data (palette self) !! j = Some v →
         save_item self j = String.append " " (fmt_d v))
    ∧ (∀ j, (length (buffer_data (palette self)) ≤ j)%nat →
         save_item self j = " 0"%string).
Proof.
  intros self f. apply (save_dumps_buffer_in_order self f); reflexivity.
Defined.

Lemma write_all_closed w ws fp :
  closed fp = true →
  write_all (w :: ws) fp = inl (ValueError "I/O operation on closed file.").
Proof.
  intros Hfp. unfold write_all. cbn [foldl]. unfold file_write at 2.
  rewrite Hfp. by induction ws.
Qed.

Lemma save_closed self f :
  truthy_str (rawmode self) = false →
  closed f = true →
  save self (File f) = inl (ValueError "I/O operation on closed file.").
Proof.
  intros Hraw Hclosed. unfold save. rewrite Hraw. unfold save_writes.
  by rewrite write_all_closed.
Qed.

(** X18. On a structured palette, [save] to a file object open for writing
    text appends the same text whatever the file holds, and closes the file: a second [save] to
    the same object fails with the [ValueError] of its first write, as
    does any [save] to a file object that is already closed. *)
Theorem save_to_file_object self :
  truthy_str (rawmode self) = false →
  ∃ text,
    ∀ f,
      (closed f = false →
       ∃ fp,
         save self (File f) = inr fp
         ∧ fp = mkFile (String.append (written f) text) true
         ∧ save self (File fp)
           = inl (ValueError "I/O operation on closed file."))
      ∧ (closed f = true →
         save self (File f)
         = inl (ValueError "I/O operation on closed file.")).
Proof.
  intros Hraw. exists (text_of (save_writes self)). intros f. split.
  - intros Hopen. eexists. split; [|split; [reflexivity|]].
    + unfold save. rewrite Hraw, write_all_open by done.
      cbn [written]. by rewrite foldl_append_text.
    + by apply save_closed.
  - intros Hclosed. by apply save_closed.
Qed.

Lemma save_to_file_object_witness :
  let self :=
    mkImagePalette "L" [PStr "L"] None (PyByteArray [7; 8; 9]) ∅ None in
  ∃ text,
    ∀ f,
      (closed f = false →
       ∃ fp,
         save self (File f) = inr fp
         ∧ fp = mkFile (String.append (written f) text) true
         ∧ save self (File fp)
           = inl (ValueError "I/O operation on closed file."))
      ∧ (closed f = true →
         save self (File f)
         = inl (ValueError "I/O operation on closed file.")).
Proof.
  intros self. apply (save_to_file_object self). reflexivity.
Defined.

(** ** Construction without a buffer *)

(** X19. Constructing a palette without a buffer and with size 0 never
    fails: the labels are the given ones or those of the mode string, no
    color is allocated, the object is neither raw nor dirty, and the buffer
    holds the identity ramp for each of the [C] channels. [tobytes] then
    returns these [256 * C] bytes and [getdata] pairs them with the tag
    [mode + ";L"]. *)
Theorem default_construction mode chs :
  ∃ self bytes,
    ImagePalette_init mode chs None 0 = inr self
    ∧ channels self = channels_or_split chs mode
    ∧ rawmode self = None ∧ colors self = ∅ ∧ dirty self = None
    ∧ tobytes self = inr bytes
    ∧ getdata self = inr (String.append mode ";L", PyBytes bytes)
    ∧ length bytes = (256 * length (channels self))%nat
    ∧ ∀ c i, (c < length (channels self))%nat → (i < 256)%nat →
        bytes !! (c * 256 + i)%nat = Some (Z.of_nat i).
Proof.
  rewrite init_default_buffer. eexists _, _. split; [reflexivity|].
  cbn [channels rawmode colors dirty].
  split; [done|]. split; [done|]. split; [done|]. split; [done|].
  set (n := length (channels_or_split chs mode)).
  assert (forallb is_byte (seq_mul ramp n) = true) as Hbytes.
  { apply forallb_is_byte, seq_mul_Forall, ramp_bytes. }
  assert (tobytes (mkImagePalette mode (channels_or_split chs mode) None
                     (PyByteArray (seq_mul ramp n)) ∅ None)
          = inr (seq_mul ramp n)) as Hto.
  { unfold tobytes, array_B. simpl. by rewrite Hbytes. }
  split; [exact Hto|]. split; [unfold getdata; by rewrite Hto|].
  split; [rewrite default_buffer_length; lia|].
  intros c i Hc Hi. by apply default_buffer_lookup.
Qed.

(** ** [load]: the search through the file-format readers *)

Section Load.

Context {lut : Type}.

(** Truthiness of a reader's result. *)
Variable truthy : lut → bool.

(** What [paletteHandler(fp).getpalette()] does for one reader on the
    file at hand: it returns a value, or raises [SyntaxError], or raises
    another exception. *)
Inductive handler_outcome : Type :=
| Returns (l : lut)
| RaisesSyntaxError
| Raises (e : exn).

(** The [for]/[else] of [load] over the readers' outcomes, in the order
    of the list (the source lists three readers). *)
Fixpoint load (handlers : list handler_outcome) : raised + lut :=
  match handlers with
  | [] => inl (IOError "cannot load palette")
  | Returns l :: handlers => if truthy l then inr l else load handlers
  | RaisesSyntaxError :: handlers => load handlers
  | Raises (ValueError _) :: handlers => load handlers
  | Raises e :: _ => inl (Raised e)
  end.

(** A reader that makes [load] go on to the next one. *)
Definition passes (h : handler_outcome) : Prop :=
  match h with
  | Returns l => truthy l = false
  | RaisesSyntaxError => True
  | Raises (ValueError _) => True
  | Raises _ => False
  end.

Lemma load_passes pre handlers :
  Forall passes pre → load (pre ++ handlers) = load handlers.
Proof.
  induction 1 as [|h pre Hh _ IH]; [done|].
  destruct h as [l| |[]]; simpl in *; try done. by rewrite Hh.
Qed.

(** X20. [load] returns the result of the first reader that returns a
    non-empty value, provided every reader before it returned an empty
    value or raised [SyntaxError] or [ValueError]; the readers after it
    do not matter. It fails with [IOError] exactly when every reader
    passes in this way, and an exception of another kind stops the search
    even if a later reader would succeed. *)
Theorem load_first_success handlers :
  (∀ l, load handlers = inr l ↔
        ∃ pre post, handlers = pre ++ Returns l :: post
                    ∧ Forall passes pre ∧ truthy l = true)
  ∧ (load handlers = inl (IOError "cannot load palette") ↔
     Forall passes handlers)
  ∧ (∀ e, load handlers = inl (Raised e) ↔
          ∃ pre post, handlers = pre ++ Raises e :: post
                      ∧ Forall passes pre ∧ ¬ passes (Raises e)).
Proof.
  induction handlers as [|h handlers (IHok & IHio & IHexn)].
  { split; [|split].
    - intros l. split; [done|]. by intros ([|??] & ? & ? & _).
    - done.
    - intros e. split; [done|]. by intros ([|??] & ? & ? & _). }
  assert (passes h → load (h :: handlers) = load handlers) as Hskip.
  { intros Hh. apply (load_passes [h]). by constructor. }
  assert (passes h ∨ ¬ passes h) as [Hh|Hh].
  { destruct h as [l| |[]]; simpl; auto.
    destruct (truthy l); auto. }
  2:{ assert ((∃ l, h = Returns l ∧ truthy l = true
                    ∧ load (h :: handlers) = inr l)
              ∨ (∃ e, h = Raises e
                      ∧ load (h :: handlers) = inl (Raised e))) as Hstop.
      { destruct h as [l| |[]]; simpl in *; try done; eauto.
        destruct (truthy l) eqn:E; [eauto|done]. }
      split; [|split].
      - intros l. split.
        + destruct Hstop as [(l' & -> & Hl' & E)|(e & -> & E)];
            rewrite E; [|done].
          intros [= <-]. by exists [], handlers.
        + intros ([|h' pre] & post & Heq & Hpre & Hl).
          * injection Heq as -> ->. simpl. by rewrite Hl.
          * injection Heq as -> ->. by apply Forall_cons in Hpre as [? _].
      - split.
        + by destruct Hstop as [(l' & -> & Hl' & ->)|(e & -> & ->)].
        + by intros [? _]%Forall_cons.
      - intros e. split.
        + destruct Hstop as [(l' & -> & Hl' & E)|(e' & -> & E)];
            rewrite E; [done|].
          intros [= <-]. by exists [], handlers.
        + intros ([|h' pre] & post & Heq & Hpre & He).
          * injection Heq as -> ->.
            destruct e; simpl in *; try done.
          * injection Heq as -> ->. by apply Forall_cons in Hpre as [? _]. }
  rewrite Hskip by done. split; [|split].
  - intros l. rewrite IHok. split.
    + intros (pre & post & -> & Hpre & Hl).
      exists (h :: pre), post. split; [done|]. split; [|done].
      by constructor.
    + intros ([|h' pre] & post & Heq & Hpre & Hl).
      * injection Heq as -> ->. simpl in Hh. congruence.
      * injection Heq as -> ->. apply Forall_cons in Hpre as [_ Hpre].
        by exists pre, post.
  - rewrite IHio. split; [by constructor|]. by intros [_ ?]%Forall_cons.
  - intros e. rewrite IHexn. split.
    + intros (pre & post & -> & Hpre & He).
      exists (h :: pre), post. split; [done|]. split; [|done].
      by constructor.
    + intros ([|h' pre] & post & Heq & Hpre & He).
      * injection Heq as -> ->. done.
      * injection Heq as -> ->. apply Forall_cons in Hpre as [_ Hpre].
        by exists pre, post.
Qed.

End Load.
